(** * Closure Library: drag-scroll support and HTML5 history

  A shallow embedding of two classes of the Closure Library,
  [goog.fx.DragScrollSupport] and [goog.history.Html5History], with the
  properties their specification states about them.

  JavaScript numbers are modelled as exact rationals ([Q]): the code only
  adds, subtracts, compares and multiplies by the constants 2 and 0.25, and
  the idealisation leaves rounding, NaN and the infinities out.  Strings are
  [string]; [null] and [undefined] are [None]. *)

From Stdlib Require Import QArith Qminmax Lqa ZArith Lia Bool List String Ascii.
Import ListNotations.

Set Implicit Arguments.

(** ** JavaScript numbers *)

Module JsNum.

Definition number := Q.

(** [a < b], [a > b], [a <= b], [a >= b] on numbers. *)
Definition lt (a b : number) : bool := negb (Qle_bool b a).
Definition gt (a b : number) : bool := lt b a.
Definition le (a b : number) : bool := Qle_bool a b.
Definition ge (a b : number) : bool := Qle_bool b a.

(** Truthiness of a number: every number but zero. *)
Definition truthy (a : number) : bool := negb (Qeq_bool a 0).

(** [Math.min]. *)
Definition Math_min (a b : number) : number := Qmin a b.

End JsNum.

(** ** goog.fx.DragScrollSupport *)

Module DragScrollSupport.
Import JsNum.
Local Open Scope Q_scope.

(** [goog.math.Coordinate]. *)
Record Coordinate := { x : number; y : number }.

(** [goog.math.Rect]. *)
Record Rect := { left : number; top : number; width : number; height : number }.

(** [goog.math.Size], as [goog.dom.getViewportSize] returns it. *)
Record Size := { size_width : number; size_height : number }.

(** Modelled from the spec: [goog.Timer], whose source is not part of this
    slice.  The data model keeps one bit of it, "timer running / stopped";
    [start] sets it and [stop] clears it. *)
Record Timer := { enabled : bool }.
Definition Timer_start (t : Timer) : Timer := {| enabled := true |}.
Definition Timer_stop (t : Timer) : Timer := {| enabled := false |}.

(** The part of the container element the class reads and writes. *)
Record Element := {
  tagName : string;
  scrollTop : number;
  scrollLeft : number
}.

(** The fields of a [goog.fx.DragScrollSupport] instance.  [mouseMoveTracked]
    stands for the MOUSEMOVE listener of [eventHandler_]. *)
Record t := {
  constrainScroll_ : bool;
  horizontalScrolling_ : bool;
  containerNode_ : Element;
  scrollTimer_ : Timer;
  mouseMoveTracked : bool;
  scrollDelta_ : Coordinate;
  containerIsActuallyContent_ : bool;
  containerBounds_ : Rect;
  margin_ : number;
  scrollBounds_ : Rect
}.

Definition TIMER_STEP_ : number := 50.
Definition SCROLL_STEP_ : number := 8.
Definition ORIGIN_COORDINATE_ : Coordinate := {| x := 0; y := 0 |}.
Definition MARGIN : number := 32.

(** [constrainBounds_], as a function of the margin and of the rectangle it
    updates in place. *)
Definition constrainBounds_ (margin : number) (bounds : Rect) : Rect :=
  if truthy margin then
    let quarterHeight := height bounds * (1 # 4) in
    let yMargin := Math_min margin quarterHeight in
    let top' := top bounds + yMargin in
    let height' := height bounds - 2 * yMargin in
    let quarterWidth := width bounds * (1 # 4) in
    let xMargin := Math_min margin quarterWidth in
    let left' := left bounds + xMargin in
    let width' := width bounds - 2 * xMargin in
    {| left := left'; top := top'; width := width'; height := height' |}
  else bounds.

(** [setupListeners_]: the TICK listener is always installed, the MOUSEMOVE
    listener unless the client tracks the mouse itself. *)
Definition setupListeners_ (externalMouseMoveTracking : bool) : bool :=
  negb externalMouseMoveTracking.

(** The constructor.  [measured] is what [goog.style.getBounds] reports for
    the container and [viewport] what [goog.dom.getViewportSize] reports. *)
Definition new (containerNode : Element) (measured : Rect) (viewport : Size)
    (opt_margin : option number) (opt_externalMouseMoveTracking : option bool)
    : t :=
  let isContent :=
    (String.eqb (tagName containerNode) "BODY"
     || String.eqb (tagName containerNode) "HTML")%bool in
  let containerBounds :=
    if isContent then
      {| left := left measured; top := top measured;
         width := size_width viewport; height := size_height viewport |}
    else measured in
  let margin :=
    match opt_margin with
    | Some m => if truthy m then m else 0
    | None => 0
    end in
  let provided :=
    match opt_margin with
    | Some m => truthy m
    | None => false
    end in
  {| constrainScroll_ := false;
     horizontalScrolling_ := true;
     containerNode_ := containerNode;
     scrollTimer_ := {| enabled := false |};
     mouseMoveTracked :=
       setupListeners_
         (match opt_externalMouseMoveTracking with
          | Some b => b
          | None => false
          end);
     scrollDelta_ := {| x := 0; y := 0 |};
     containerIsActuallyContent_ := isContent;
     containerBounds_ := containerBounds;
     margin_ := margin;
     scrollBounds_ :=
       if provided then constrainBounds_ margin containerBounds
       else containerBounds |}.

Definition setConstrainScroll (this : t) (constrain : bool) : t :=
  {| constrainScroll_ := truthy (margin_ this) && constrain;
     horizontalScrolling_ := horizontalScrolling_ this;
     containerNode_ := containerNode_ this;
     scrollTimer_ := scrollTimer_ this;
     mouseMoveTracked := mouseMoveTracked this;
     scrollDelta_ := scrollDelta_ this;
     containerIsActuallyContent_ := containerIsActuallyContent_ this;
     containerBounds_ := containerBounds_ this;
     margin_ := margin_ this;
     scrollBounds_ := scrollBounds_ this |}.

Definition setHorizontalScrolling (this : t) (scrolling : bool) : t :=
  {| constrainScroll_ := constrainScroll_ this;
     horizontalScrolling_ := scrolling;
     containerNode_ := containerNode_ this;
     scrollTimer_ := scrollTimer_ this;
     mouseMoveTracked := mouseMoveTracked this;
     scrollDelta_ := scrollDelta_ this;
     containerIsActuallyContent_ := containerIsActuallyContent_ this;
     containerBounds_ := containerBounds_ this;
     margin_ := margin_ this;
     scrollBounds_ := scrollBounds_ this |}.

Definition calculateScrollDelta (coordinate min rangeLength : number) : number :=
  if lt coordinate min then - SCROLL_STEP_
  else if gt coordinate (min + rangeLength) then SCROLL_STEP_
  else 0.

Definition isInContainerBounds_ (this : t) (x y : number) : bool :=
  let containerBounds := containerBounds_ this in
  le (left containerBounds) x
  && ge (left containerBounds + width containerBounds) x
  && le (top containerBounds) y
  && ge (top containerBounds + height containerBounds) y.

(** A mouse move event, as far as the handler reads it. *)
Record MouseEvent := { clientX : number; clientY : number }.

(** [onTick_]: one scroll step. *)
Definition onTick_ (this : t) : t :=
  let node := containerNode_ this in
  let node' :=
    {| tagName := tagName node;
       scrollTop := scrollTop node + y (scrollDelta_ this);
       scrollLeft := scrollLeft node + x (scrollDelta_ this) |} in
  {| constrainScroll_ := constrainScroll_ this;
     horizontalScrolling_ := horizontalScrolling_ this;
     containerNode_ := node';
     scrollTimer_ := scrollTimer_ this;
     mouseMoveTracked := mouseMoveTracked this;
     scrollDelta_ := scrollDelta_ this;
     containerIsActuallyContent_ := containerIsActuallyContent_ this;
     containerBounds_ := containerBounds_ this;
     margin_ := margin_ this;
     scrollBounds_ := scrollBounds_ this |}.

(** The offset [onMouseMove] adds to the client coordinates;
    [documentScroll] is what [getDocumentScroll] reports at that moment. *)
Definition eventOffset (this : t) (documentScroll : Coordinate) : Coordinate :=
  if containerIsActuallyContent_ this then ORIGIN_COORDINATE_
  else documentScroll.

Definition onMouseMove (this : t) (event : MouseEvent)
    (documentScroll : Coordinate) : t :=
  let eventOffset := eventOffset this documentScroll in
  let deltaX :=
    if horizontalScrolling_ this then
      calculateScrollDelta (clientX event + x eventOffset)
        (left (scrollBounds_ this)) (width (scrollBounds_ this))
    else 0 in
  let deltaY :=
    calculateScrollDelta (clientY event + y eventOffset)
      (top (scrollBounds_ this)) (height (scrollBounds_ this)) in
  let timer :=
    if (negb (truthy deltaX) && negb (truthy deltaY))
       || (constrainScroll_ this
           && negb (isInContainerBounds_ this
                      (clientX event + x eventOffset)
                      (clientY event + y eventOffset)))
    then Timer_stop (scrollTimer_ this)
    else if negb (enabled (scrollTimer_ this))
         then Timer_start (scrollTimer_ this)
         else scrollTimer_ this in
  {| constrainScroll_ := constrainScroll_ this;
     horizontalScrolling_ := horizontalScrolling_ this;
     containerNode_ := containerNode_ this;
     scrollTimer_ := timer;
     mouseMoveTracked := mouseMoveTracked this;
     scrollDelta_ := {| x := deltaX; y := deltaY |};
     containerIsActuallyContent_ := containerIsActuallyContent_ this;
     containerBounds_ := containerBounds_ this;
     margin_ := margin_ this;
     scrollBounds_ := scrollBounds_ this |}.

End DragScrollSupport.

(** ** JavaScript strings *)

Module JsString.
Local Open Scope Z_scope.

Fixpoint indexOf_from (s : string) (c : ascii) (i : Z) : Z :=
  match s with
  | EmptyString => -1
  | String a rest => if Ascii.eqb a c then i else indexOf_from rest c (i + 1)
  end.

(** [s.indexOf(c)] for a one-character search string: the index of the first
    occurrence, or -1. *)
Definition indexOf (s : string) (c : ascii) : Z := indexOf_from s c 0.

Fixpoint drop (n : nat) (s : string) : string :=
  match n, s with
  | O, _ => s
  | S _, EmptyString => EmptyString
  | S n', String _ rest => drop n' rest
  end.

Definition length (s : string) : Z := Z.of_nat (String.length s).

(** [s.substring(start)]: a negative start counts as 0, a start past the end
    gives the empty string. *)
Definition substring (s : string) (start : Z) : string :=
  drop (Z.to_nat (Z.max 0 start)) s.

(** [s.slice(start)]: a negative start counts from the end. *)
Definition slice (s : string) (start : Z) : string :=
  if start <? 0 then drop (Z.to_nat (Z.max 0 (length s + start))) s
  else drop (Z.to_nat start) s.

(** [a || b] on strings that may be null or undefined: the empty string is
    as falsy as null. *)
Definition or_else (a b : option string) : option string :=
  match a with
  | Some s => if String.eqb s "" then b else a
  | None => b
  end.

(** [a != b] on values of type [?string]. *)
Definition neq (a b : option string) : bool :=
  match a, b with
  | Some s, Some s' => negb (String.eqb s s')
  | None, None => false
  | _, _ => true
  end.

End JsString.

(** ** goog.history.Html5History *)

Module Html5History.
Local Open Scope string_scope.

(** *** The host window *)

(** [window.location], as far as the class reads it. *)
Record Location := {
  href : string;
  pathname : string;
  search : string
}.

(** [window.history]; [pushState_defined] tells whether the host has the
    [pushState] method. *)
Record History := { pushState_defined : bool }.

(** The browser events the class listens to. *)
Inductive EventType := POPSTATE | HASHCHANGE.

Record BrowserEvent := { type : EventType }.

(** The host window.  [navigate] is the host's URL resolution: the location
    the window shows once [pushState] or [replaceState] was given a URL.
    [popstateListener] and [hashchangeListener] tell whether
    [onHistoryEvent_] is registered for the event type. *)
Record Window := {
  location : Location;
  history : option History;
  document_title : option string;
  navigate : Location -> string -> Location;
  popstateListener : bool;
  hashchangeListener : bool
}.

Definition Window_listen (ty : EventType) (registered : bool) (w : Window)
    : Window :=
  {| location := location w;
     history := history w;
     document_title := document_title w;
     navigate := navigate w;
     popstateListener :=
       match ty with POPSTATE => registered | HASHCHANGE => popstateListener w end;
     hashchangeListener :=
       match ty with HASHCHANGE => registered | POPSTATE => hashchangeListener w end |}.

Definition Window_go (url : string) (w : Window) : Window :=
  {| location := navigate w (location w) url;
     history := history w;
     document_title := document_title w;
     navigate := navigate w;
     popstateListener := popstateListener w;
     hashchangeListener := hashchangeListener w |}.

(** *** The class *)

(** [goog.history.Html5History.TokenTransformer]. *)
Record TokenTransformer := {
  retrieveToken : string -> Location -> string;
  createUrl : string -> string -> Location -> string
}.

(** [goog.history.Event]. *)
Record Event := { token : string; isNavigation : bool }.

(** The fields of an instance; [window_] is kept beside them, in [World]. *)
Record t := {
  transformer_ : option TokenTransformer;
  lastFragment_ : option string;
  enabled_ : bool;
  useFragment_ : bool;
  pathPrefix_ : string
}.

(** What the class does to its surroundings, in order. *)
Inductive Effect :=
| PushState (title url : string)
| ReplaceState (title url : string)
| Dispatch (e : Event).

(** The instance, the window it holds and the effects so far. *)
Record World := {
  this : t;
  window_ : Window;
  trace : list Effect
}.

Inductive Error := AssertionError (message : string).

Inductive Result (A : Type) :=
| Ok (a : A)
| Throw (e : Error).
Arguments Ok {A} a.
Arguments Throw {A} e.

(** Methods run on the world and return normally or throw. *)
Definition M (A : Type) : Type := World -> Result (A * World).

Definition ret {A} (a : A) : M A := fun w => Ok (a, w).

Definition bind {A B} (m : M A) (k : A -> M B) : M B :=
  fun w =>
    match m w with
    | Ok (a, w') => k a w'
    | Throw e => Throw e
    end.

Definition throw {A} (e : Error) : M A := fun _ => Throw e.

Notation "x <- m ;; k" := (bind m (fun x => k))
  (at level 61, m at next level, right associativity).
Notation "m ;;; k" := (bind m (fun _ => k))
  (at level 61, right associativity).

Definition get : M World := fun w => Ok (w, w).
Definition put (w : World) : M unit := fun _ => Ok (tt, w).

(** Modelled from the spec: [goog.asserts.assert] and
    [goog.asserts.assertString], whose source is not part of this slice, with
    assertions enabled: a failed assertion is a "precondition violation, not a
    recoverable error". *)
Definition assert (condition : bool) (message : string) : Result unit :=
  if condition then Ok tt else Throw (AssertionError message).

Definition assertString (value : option string) : M string :=
  match value with
  | Some s => ret s
  | None => throw (AssertionError "Expected string but got null.")
  end.

(** Field updates. *)
Definition set_this (f : t -> t) : M unit :=
  fun w => Ok (tt, {| this := f (this w); window_ := window_ w; trace := trace w |}).

Definition set_window (f : Window -> Window) : M unit :=
  fun w => Ok (tt, {| this := this w; window_ := f (window_ w); trace := trace w |}).

Definition emit (e : Effect) : M unit :=
  fun w => Ok (tt, {| this := this w; window_ := window_ w; trace := trace w ++ [e] |}).

Definition with_lastFragment (v : option string) (o : t) : t :=
  {| transformer_ := transformer_ o; lastFragment_ := v; enabled_ := enabled_ o;
     useFragment_ := useFragment_ o; pathPrefix_ := pathPrefix_ o |}.

Definition with_enabled (v : bool) (o : t) : t :=
  {| transformer_ := transformer_ o; lastFragment_ := lastFragment_ o; enabled_ := v;
     useFragment_ := useFragment_ o; pathPrefix_ := pathPrefix_ o |}.

Definition with_useFragment (v : bool) (o : t) : t :=
  {| transformer_ := transformer_ o; lastFragment_ := lastFragment_ o;
     enabled_ := enabled_ o; useFragment_ := v; pathPrefix_ := pathPrefix_ o |}.

Definition with_pathPrefix (v : string) (o : t) : t :=
  {| transformer_ := transformer_ o; lastFragment_ := lastFragment_ o;
     enabled_ := enabled_ o; useFragment_ := useFragment_ o; pathPrefix_ := v |}.

(** [dispatchEvent]: the event is handed to the listeners of the channel. *)
Definition dispatchEvent (e : Event) : M unit := emit (Dispatch e).

(** [history.pushState(null, title, url)] and
    [history.replaceState(null, title, url)]. *)
Definition pushState (title url : string) : M unit :=
  emit (PushState title url) ;;; set_window (Window_go url).

Definition replaceState (title url : string) : M unit :=
  emit (ReplaceState title url) ;;; set_window (Window_go url).

(** [goog.history.Html5History.isSupported]; [window] is the global window. *)
Definition isSupported (opt_win : option Window) (window : Window) : bool :=
  let win := match opt_win with Some w => w | None => window end in
  match history win with
  | Some h => pushState_defined h
  | None => false
  end.

(** The constructor; [window] is the global window. *)
Definition new (opt_win : option Window) (opt_transformer : option TokenTransformer)
    (window : Window) : Result World :=
  match assert (isSupported opt_win window) "HTML5 history is not supported." with
  | Throw e => Throw e
  | Ok _ =>
      let win := match opt_win with Some w => w | None => window end in
      Ok {| this :=
              {| transformer_ := opt_transformer;
                 lastFragment_ := None;
                 enabled_ := false;
                 useFragment_ := true;
                 pathPrefix_ := "/" |};
            window_ := Window_listen HASHCHANGE true (Window_listen POPSTATE true win);
            trace := [] |}
  end.

Definition getFragment_ : M (option string) :=
  w <- get ;;
  if useFragment_ (this w) then
    let loc := href (location (window_ w)) in
    let index := JsString.indexOf loc "#" in
    ret (Some (if (index <? 0)%Z then "" else JsString.substring loc (index + 1)))
  else ret None.

Definition getToken : M string :=
  w <- get ;;
  if useFragment_ (this w) then
    fragment <- getFragment_ ;;
    assertString fragment
  else
    match transformer_ (this w) with
    | Some transformer =>
        ret (retrieveToken transformer (pathPrefix_ (this w)) (location (window_ w)))
    | None =>
        ret (JsString.slice (pathname (location (window_ w)))
               (JsString.length (pathPrefix_ (this w))))
    end.

Definition setEnabled (enable : bool) : M unit :=
  w <- get ;;
  if Bool.eqb enable (enabled_ (this w)) then ret tt
  else
    set_this (with_enabled enable) ;;;
    if enable then
      tok <- getToken ;;
      dispatchEvent {| token := tok; isNavigation := false |}
    else ret tt.

Definition getUrl_ (tok : string) : M string :=
  w <- get ;;
  if useFragment_ (this w) then ret ("#" ++ tok)
  else
    match transformer_ (this w) with
    | Some transformer =>
        ret (createUrl transformer tok (pathPrefix_ (this w)) (location (window_ w)))
    | None =>
        ret (pathPrefix_ (this w) ++ tok ++ search (location (window_ w)))
    end.

(** [opt_title || this.window_.document.title || '']. *)
Definition entryTitle (opt_title : option string) : M string :=
  w <- get ;;
  match JsString.or_else (JsString.or_else opt_title (document_title (window_ w)))
          (Some "") with
  | Some s => ret s
  | None => ret ""
  end.

Definition setToken (tok : string) (opt_title : option string) : M unit :=
  current <- getToken ;;
  if String.eqb tok current then ret tt
  else
    title <- entryTitle opt_title ;;
    url <- getUrl_ tok ;;
    pushState title url ;;;
    dispatchEvent {| token := tok; isNavigation := false |}.

Definition replaceToken (tok : string) (opt_title : option string) : M unit :=
  title <- entryTitle opt_title ;;
  url <- getUrl_ tok ;;
  replaceState title url ;;;
  dispatchEvent {| token := tok; isNavigation := false |}.

Definition disposeInternal : M unit :=
  set_window (Window_listen POPSTATE false) ;;;
  w <- get ;;
  if useFragment_ (this w) then set_window (Window_listen HASHCHANGE false)
  else ret tt.

Definition getUseFragment : M bool :=
  w <- get ;; ret (useFragment_ (this w)).

Definition setUseFragment (useFragment : bool) : M unit :=
  w <- get ;;
  if negb (Bool.eqb (useFragment_ (this w)) useFragment) then
    set_window (Window_listen HASHCHANGE useFragment) ;;;
    set_this (with_useFragment useFragment)
  else ret tt.

Definition setPathPrefix (pathPrefix : string) : M unit :=
  set_this (with_pathPrefix pathPrefix).

Definition getPathPrefix : M string :=
  w <- get ;; ret (pathPrefix_ (this w)).

Definition EventType_eqb (a b : EventType) : bool :=
  match a, b with
  | POPSTATE, POPSTATE | HASHCHANGE, HASHCHANGE => true
  | _, _ => false
  end.

Definition onHistoryEvent_ (e : BrowserEvent) : M unit :=
  w <- get ;;
  if enabled_ (this w) then
    fragment <- getFragment_ ;;
    if EventType_eqb (type e) POPSTATE
       || JsString.neq fragment (lastFragment_ (this w))
    then
      set_this (with_lastFragment fragment) ;;;
      tok <- getToken ;;
      dispatchEvent {| token := tok; isNavigation := true |}
    else ret tt
  else ret tt.

(** The host raises an event of type [ty] on the window: the handler runs if
    it is registered for that type. *)
Definition signal (ty : EventType) : M unit :=
  w <- get ;;
  if match ty with
     | POPSTATE => popstateListener (window_ w)
     | HASHCHANGE => hashchangeListener (window_ w)
     end
  then onHistoryEvent_ {| type := ty |}
  else ret tt.

(** The notifications and the history pushes among a list of effects. *)
Fixpoint dispatched (l : list Effect) : list Event :=
  match l with
  | [] => []
  | Dispatch e :: l' => e :: dispatched l'
  | _ :: l' => dispatched l'
  end.

Fixpoint pushes (l : list Effect) : list (string * string) :=
  match l with
  | [] => []
  | PushState title url :: l' => (title, url) :: pushes l'
  | _ :: l' => pushes l'
  end.

Fixpoint replaces (l : list Effect) : list (string * string) :=
  match l with
  | [] => []
  | ReplaceState title url :: l' => (title, url) :: replaces l'
  | _ :: l' => replaces l'
  end.

End Html5History.

(** ** A host for the examples *)

Module SampleHost.
Import Html5History.
Local Open Scope string_scope.

(** The part of [s] before the first [c], and the part from it on. *)
Fixpoint before (c : ascii) (s : string) : string :=
  match s with
  | EmptyString => EmptyString
  | String a rest => if Ascii.eqb a c then EmptyString else String a (before c rest)
  end.

Fixpoint from (c : ascii) (s : string) : string :=
  match s with
  | EmptyString => EmptyString
  | String a rest => if Ascii.eqb a c then s else from c rest
  end.

(** A host that resolves URLs the way a browser does for the two shapes the
    class produces: a bare fragment replaces the fragment of the current href,
    and a path with an optional query replaces everything after the origin. *)
Definition resolve (loc : Location) (url : string) : Location :=
  match url with
  | String "#" _ =>
      {| href := before "#" (href loc) ++ url;
         pathname := pathname loc;
         search := search loc |}
  | _ =>
      {| href := "http://example.org" ++ url;
         pathname := before "?" (before "#" url);
         search := from "?" (before "#" url) |}
  end.

Definition windowAt (url path query : string) (history : option History) : Window :=
  {| location := {| href := url; pathname := path; search := query |};
     history := history;
     document_title := Some "Mail";
     navigate := resolve;
     popstateListener := false;
     hashchangeListener := false |}.

(** A window at [http://example.org/app#inbox], with the history API. *)
Definition inboxWindow : Window :=
  windowAt "http://example.org/app#inbox" "/app" ""
    (Some {| pushState_defined := true |}).

(** A window whose [history] has no [pushState], and one without [history]. *)
Definition legacyWindow : Window :=
  windowAt "http://example.org/app" "/app" ""
    (Some {| pushState_defined := false |}).

Definition bareWindow : Window :=
  windowAt "http://example.org/app" "/app" "" None.

(** The channel a fresh [new Html5History(inboxWindow)] gives. *)
Definition inboxChannel : World :=
  {| this := {| transformer_ := None; lastFragment_ := None; enabled_ := false;
                useFragment_ := true; pathPrefix_ := "/" |};
     window_ := Window_listen HASHCHANGE true (Window_listen POPSTATE true inboxWindow);
     trace := [] |}.

End SampleHost.

(** * Properties *)

(** ** Numbers *)

Module JsNumFacts.
Import JsNum.

Lemma lt_true a b : lt a b = true <-> (a < b)%Q.
Proof.
  unfold lt. rewrite negb_true_iff, <- not_true_iff_false, Qle_bool_iff.
  split; [apply Qnot_le_lt | apply Qlt_not_le].
Qed.

Lemma lt_false a b : lt a b = false <-> (b <= a)%Q.
Proof.
  unfold lt. rewrite negb_false_iff. apply Qle_bool_iff.
Qed.

Lemma gt_true a b : gt a b = true <-> (b < a)%Q.
Proof. apply lt_true. Qed.

Lemma gt_false a b : gt a b = false <-> (a <= b)%Q.
Proof. apply lt_false. Qed.

Lemma le_true a b : le a b = true <-> (a <= b)%Q.
Proof. apply Qle_bool_iff. Qed.

Lemma ge_true a b : ge a b = true <-> (b <= a)%Q.
Proof. apply Qle_bool_iff. Qed.

Lemma truthy_true a : truthy a = true <-> ~ (a == 0)%Q.
Proof.
  unfold truthy. rewrite negb_true_iff, <- not_true_iff_false, Qeq_bool_iff.
  tauto.
Qed.

Lemma truthy_false a : truthy a = false <-> (a == 0)%Q.
Proof.
  unfold truthy. rewrite negb_false_iff. apply Qeq_bool_iff.
Qed.

Lemma Math_min_cases a b :
  ((a <= b)%Q /\ (Math_min a b == a)%Q) \/ ((b <= a)%Q /\ (Math_min a b == b)%Q).
Proof.
  unfold Math_min.
  destruct (Q.min_spec a b) as [[H E] | [H E]].
  - left. split; [apply Qlt_le_weak, H | exact E].
  - right. split; [exact H | exact E].
Qed.

End JsNumFacts.

(** ** goog.fx.DragScrollSupport *)

Module DragScrollSupportFacts.
Import JsNum JsNumFacts DragScrollSupport.
Local Open Scope Q_scope.

(** Booleans of the source to propositions. *)
Ltac reflect_cmp :=
  repeat match goal with
  | H : lt _ _ = true |- _ => apply lt_true in H
  | H : lt _ _ = false |- _ => apply lt_false in H
  | H : gt _ _ = true |- _ => apply gt_true in H
  | H : gt _ _ = false |- _ => apply gt_false in H
  | H : le _ _ = true |- _ => apply le_true in H
  | H : ge _ _ = true |- _ => apply ge_true in H
  | H : truthy _ = true |- _ => apply truthy_true in H
  | H : truthy _ = false |- _ => apply truthy_false in H
  end.

Lemma calculateScrollDelta_below c zoneMin zoneLength :
  c < zoneMin -> calculateScrollDelta c zoneMin zoneLength = - SCROLL_STEP_.
Proof.
  intros H. unfold calculateScrollDelta.
  destruct (lt c zoneMin) eqn:E; [reflexivity |].
  reflect_cmp. lra.
Qed.

Lemma calculateScrollDelta_above c zoneMin zoneLength :
  zoneMin <= c -> zoneMin + zoneLength < c ->
  calculateScrollDelta c zoneMin zoneLength = SCROLL_STEP_.
Proof.
  intros H1 H2. unfold calculateScrollDelta.
  destruct (lt c zoneMin) eqn:E1; reflect_cmp; [lra |].
  destruct (gt c (zoneMin + zoneLength)) eqn:E2; reflect_cmp; [reflexivity | lra].
Qed.

Lemma calculateScrollDelta_inside c zoneMin zoneLength :
  zoneMin <= c -> c <= zoneMin + zoneLength ->
  calculateScrollDelta c zoneMin zoneLength = 0.
Proof.
  intros H1 H2. unfold calculateScrollDelta.
  destruct (lt c zoneMin) eqn:E1; reflect_cmp; [lra |].
  destruct (gt c (zoneMin + zoneLength)) eqn:E2; reflect_cmp; [lra | reflexivity].
Qed.

(** The delta is one of the three steps, and it is zero exactly inside the
    zone. *)
Lemma calculateScrollDelta_zero c zoneMin zoneLength :
  truthy (calculateScrollDelta c zoneMin zoneLength) = false <->
  zoneMin <= c /\ c <= zoneMin + zoneLength.
Proof.
  unfold calculateScrollDelta.
  destruct (lt c zoneMin) eqn:E1; reflect_cmp.
  - split; [discriminate | intros [H _]; lra].
  - destruct (gt c (zoneMin + zoneLength)) eqn:E2; reflect_cmp.
    + split; [discriminate | intros [_ H]; lra].
    + split; [intros _; split; assumption | reflexivity].
Qed.

(** C1. [calculateScrollDelta coordinate zoneMin zoneLength] is [-8] when the
    coordinate is below [zoneMin]; otherwise it is [+8] when the coordinate is
    above [zoneMin + zoneLength]; otherwise it is [0].  The three cases are
    tried in this order; for a zone of non-negative length the first two
    exclude each other, so that a coordinate above [zoneMin + zoneLength]
    always gives [+8]. *)
Theorem calculateScrollDelta_spec (coordinate zoneMin zoneLength : number) :
  SCROLL_STEP_ = 8 /\
  (coordinate < zoneMin ->
   calculateScrollDelta coordinate zoneMin zoneLength = -8) /\
  (~ coordinate < zoneMin -> zoneMin + zoneLength < coordinate ->
   calculateScrollDelta coordinate zoneMin zoneLength = 8) /\
  (~ coordinate < zoneMin -> ~ zoneMin + zoneLength < coordinate ->
   calculateScrollDelta coordinate zoneMin zoneLength = 0) /\
  (0 <= zoneLength -> zoneMin + zoneLength < coordinate ->
   calculateScrollDelta coordinate zoneMin zoneLength = 8).
Proof.
  split; [reflexivity |].
  split; [apply calculateScrollDelta_below |].
  split; [| split].
  - intros H1 H2. apply calculateScrollDelta_above; lra.
  - intros H1 H2. apply calculateScrollDelta_inside; lra.
  - intros H1 H2. apply calculateScrollDelta_above; lra.
Qed.

Lemma calculateScrollDelta_spec_witness :
  calculateScrollDelta 3 10 20 = -8 /\
  calculateScrollDelta 31 10 20 = 8 /\
  calculateScrollDelta 30 10 20 = 0 /\
  calculateScrollDelta 10 10 20 = 0.
Proof.
  destruct (calculateScrollDelta_spec 3 10 20) as (_ & Hlo & _).
  destruct (calculateScrollDelta_spec 31 10 20) as (_ & _ & _ & _ & Hhi).
  destruct (calculateScrollDelta_spec 30 10 20) as (_ & _ & _ & Hmid & _).
  destruct (calculateScrollDelta_spec 10 10 20) as (_ & _ & _ & Hmin & _).
  split; [apply Hlo; lra |].
  split; [apply Hhi; lra |].
  split; [apply Hmid; lra | apply Hmin; lra].
Defined.

(** *** The scroll timer *)

(** The point of a sample in the coordinates of the container bounds. *)
Definition sampleX (s : t) (e : MouseEvent) (documentScroll : Coordinate) : number :=
  clientX e + x (eventOffset s documentScroll).

Definition sampleY (s : t) (e : MouseEvent) (documentScroll : Coordinate) : number :=
  clientY e + y (eventOffset s documentScroll).

(** A point lies within a rectangle, edges included. *)
Definition within (r : Rect) (px py : number) : Prop :=
  left r <= px /\ px <= left r + width r /\
  top r <= py /\ py <= top r + height r.

Lemma isInContainerBounds_true s px py :
  isInContainerBounds_ s px py = true <-> within (containerBounds_ s) px py.
Proof.
  unfold isInContainerBounds_, within.
  rewrite !andb_true_iff, !le_true, !ge_true. tauto.
Qed.

Lemma isInContainerBounds_false s px py :
  isInContainerBounds_ s px py = false <-> ~ within (containerBounds_ s) px py.
Proof.
  rewrite <- isInContainerBounds_true.
  destruct (isInContainerBounds_ s px py); split; congruence.
Qed.

(** What [onMouseMove] leaves in the timer, whatever it held before. *)
Lemma onMouseMove_timer s e documentScroll :
  let s' := onMouseMove s e documentScroll in
  enabled (scrollTimer_ s') =
  negb ((negb (truthy (x (scrollDelta_ s'))) && negb (truthy (y (scrollDelta_ s'))))
        || (constrainScroll_ s
            && negb (isInContainerBounds_ s (sampleX s e documentScroll)
                       (sampleY s e documentScroll)))).
Proof.
  unfold onMouseMove, sampleX, sampleY. cbn [scrollTimer_ scrollDelta_ x y].
  match goal with
  | |- enabled (if ?c then _ else _) = _ => destruct c
  end; cbn [negb].
  - reflexivity.
  - destruct (enabled (scrollTimer_ s)) eqn:E; cbn [negb]; [exact E | reflexivity].
Qed.

Lemma onMouseMove_keeps s e documentScroll :
  let s' := onMouseMove s e documentScroll in
  constrainScroll_ s' = constrainScroll_ s /\
  containerBounds_ s' = containerBounds_ s /\
  scrollBounds_ s' = scrollBounds_ s /\
  margin_ s' = margin_ s.
Proof. repeat split. Qed.

(** C2. After [onMouseMove] the scroll timer runs exactly when the delta it
    computed is nonzero in an axis and it is not the case that scrolling is
    constrained and the sample lies outside the container bounds.  With a
    nonzero margin and [setConstrainScroll(true)], a sample outside the
    container bounds leaves the timer stopped. *)
Theorem onMouseMove_timer_running (s : t) (e : MouseEvent) (documentScroll : Coordinate) :
  let s' := onMouseMove s e documentScroll in
  let px := sampleX s e documentScroll in
  let py := sampleY s e documentScroll in
  (enabled (scrollTimer_ s') = true <->
   (~ x (scrollDelta_ s') == 0 \/ ~ y (scrollDelta_ s') == 0) /\
   ~ (constrainScroll_ s = true /\ ~ within (containerBounds_ s) px py)) /\
  (~ margin_ s == 0 ->
   ~ within (containerBounds_ s) px py ->
   enabled (scrollTimer_ (onMouseMove (setConstrainScroll s true) e documentScroll))
   = false).
Proof.
  intros s' px py. split.
  - subst s' px py. rewrite onMouseMove_timer.
    rewrite negb_true_iff, orb_false_iff, !andb_false_iff, !negb_false_iff.
    rewrite !truthy_true, isInContainerBounds_true.
    destruct (constrainScroll_ s); split.
    + intros [H [H' | H']]; [discriminate |]. split; [exact H | tauto].
    + intros [H H']. split; [exact H |]. right.
      destruct (isInContainerBounds_ s (sampleX s e documentScroll)
                  (sampleY s e documentScroll)) eqn:E.
      * apply isInContainerBounds_true, E.
      * apply isInContainerBounds_false in E. exfalso. apply H'. split; [reflexivity | exact E].
    + intros [H _]. split; [exact H |]. intros [H' _]. discriminate.
    + intros [H _]. split; [exact H |]. left. reflexivity.
  - intros Hm Hout. rewrite onMouseMove_timer.
    apply negb_false_iff, orb_true_iff. right.
    apply andb_true_iff. split.
    + cbn [setConstrainScroll constrainScroll_ margin_].
      apply andb_true_iff. split; [apply truthy_true, Hm | reflexivity].
    + apply negb_true_iff, isInContainerBounds_false. exact Hout.
Qed.

(** A container at (100, 100) of 200 by 200, margin 20, and a sample at
    (50, 50): the deltas are nonzero, the sample is outside the container. *)
Definition sampleController : t :=
  new {| tagName := "DIV"; scrollTop := 0; scrollLeft := 0 |}
      {| left := 100; top := 100; width := 200; height := 200 |}
      {| size_width := 1000; size_height := 800 |}
      (Some 20) None.

Lemma onMouseMove_timer_running_witness :
  let e := {| clientX := 50; clientY := 50 |} in
  let origin := {| x := 0; y := 0 |} in
  enabled (scrollTimer_ (onMouseMove sampleController e origin)) = true /\
  x (scrollDelta_ (onMouseMove (setConstrainScroll sampleController true) e origin))
    = -8 /\
  enabled (scrollTimer_
             (onMouseMove (setConstrainScroll sampleController true) e origin))
    = false.
Proof.
  intros e origin.
  destruct (onMouseMove_timer_running sampleController e origin) as [Hiff Hstop].
  split; [| split].
  - apply Hiff. split.
    + left. vm_compute. discriminate.
    + intros [H _]. vm_compute in H. discriminate.
  - reflexivity.
  - apply Hstop.
    + vm_compute. discriminate.
    + unfold within. vm_compute. intros (H & _). apply H. reflexivity.
Defined.

(** *** The trigger zone *)


Lemma new_scrollBounds node measured viewport m ext :
  0 < m ->
  let s := new node measured viewport (Some m) ext in
  scrollBounds_ s = constrainBounds_ m (containerBounds_ s).
Proof.
  intros H. unfold new. cbn [scrollBounds_ containerBounds_].
  destruct (truthy m) eqn:E; [reflexivity |].
  reflect_cmp. lra.
Qed.

(** The inset [constrainBounds_] applies along a dimension of length [d]. *)
Definition inset (margin d : number) : number := Qmin margin (d * (1 # 4)).

Lemma inset_le_quarter margin d : inset margin d <= d * (1 # 4).
Proof.
  unfold inset. destruct (Math_min_cases margin (d * (1 # 4))) as [[H E] | [H E]];
    unfold Math_min in E; rewrite E; lra.
Qed.

Lemma constrainBounds_inset margin bounds :
  ~ margin == 0 ->
  let r := constrainBounds_ margin bounds in
  left r = left bounds + inset margin (width bounds) /\
  top r = top bounds + inset margin (height bounds) /\
  width r = width bounds - 2 * inset margin (width bounds) /\
  height r = height bounds - 2 * inset margin (height bounds).
Proof.
  intros H. unfold constrainBounds_.
  destruct (truthy margin) eqn:E; [repeat split |].
  reflect_cmp. contradiction.
Qed.

(** C3. For a controller constructed with a margin above zero, the trigger
    zone is the container bounds moved in on each of its four sides by the
    margin or a quarter of the dimension, whichever is smaller, so that the
    zone of a container of non-negative width and height has non-negative
    width and height; a container 100 wide (or high) with margin 60 is moved
    in by 25 on each side and keeps 50. *)
Theorem scrollBounds_inset (node : Element) (measured : Rect) (viewport : Size)
    (margin : number) (ext : option bool) :
  0 < margin ->
  let s := new node measured viewport (Some margin) ext in
  let cb := containerBounds_ s in
  let sb := scrollBounds_ s in
  let xMargin := Qmin margin (width cb * (1 # 4)) in
  let yMargin := Qmin margin (height cb * (1 # 4)) in
  (left sb == left cb + xMargin /\
   left sb + width sb == left cb + width cb - xMargin /\
   top sb == top cb + yMargin /\
   top sb + height sb == top cb + height cb - yMargin) /\
  (0 <= width cb -> 0 <= width sb) /\
  (0 <= height cb -> 0 <= height sb) /\
  (width cb == 100 -> margin == 60 -> xMargin == 25 /\ width sb == 50) /\
  (height cb == 100 -> margin == 60 -> yMargin == 25 /\ height sb == 50).
Proof.
  intros Hm s cb sb xMargin yMargin.
  assert (Hsb : sb = constrainBounds_ margin cb)
    by (apply new_scrollBounds; exact Hm).
  assert (Hnz : ~ margin == 0) by lra.
  destruct (constrainBounds_inset cb Hnz) as (Hl & Ht & Hw & Hh).
  rewrite <- Hsb in Hl, Ht, Hw, Hh.
  fold (inset margin (width cb)) in xMargin.
  fold (inset margin (height cb)) in yMargin.
  pose proof (inset_le_quarter margin (width cb)) as Hx.
  pose proof (inset_le_quarter margin (height cb)) as Hy.
  fold xMargin in Hl, Hw, Hx. fold yMargin in Ht, Hh, Hy.
  rewrite Hl, Ht, Hw, Hh.
  split; [repeat split; lra |].
  split; [intros; lra |].
  split; [intros; lra |].
  split.
  - intros Hc H60.
    assert (E : xMargin == 25).
    { subst xMargin. unfold inset.
      destruct (Math_min_cases margin (width cb * (1 # 4))) as [[H E] | [H E]];
        unfold Math_min in E; rewrite E; lra. }
    split; [exact E | lra].
  - intros Hc H60.
    assert (E : yMargin == 25).
    { subst yMargin. unfold inset.
      destruct (Math_min_cases margin (height cb * (1 # 4))) as [[H E] | [H E]];
        unfold Math_min in E; rewrite E; lra. }
    split; [exact E | lra].
Qed.

Lemma scrollBounds_inset_witness :
  let s := new {| tagName := "DIV"; scrollTop := 0; scrollLeft := 0 |}
               {| left := 10; top := 20; width := 100; height := 100 |}
               {| size_width := 1000; size_height := 800 |}
               (Some 60) None in
  0 < 60 /\
  (width (scrollBounds_ s) == 50 /\ height (scrollBounds_ s) == 50) /\
  (0 <= width (scrollBounds_ s) /\ 0 <= height (scrollBounds_ s)).
Proof.
  intros s.
  assert (Hm : 0 < 60) by reflexivity.
  destruct (scrollBounds_inset
              {| tagName := "DIV"; scrollTop := 0; scrollLeft := 0 |}
              {| left := 10; top := 20; width := 100; height := 100 |}
              {| size_width := 1000; size_height := 800 |} None Hm)
    as (_ & Hpw & Hph & Hw & Hh).
  split; [exact Hm |]. split; split.
  - apply Hw; reflexivity.
  - apply Hh; reflexivity.
  - apply Hpw. discriminate.
  - apply Hph. discriminate.
Defined.

(** *** Constrained scrolling *)


(** The argument of [setConstrainScroll] can be read back from the state the
    call leaves. *)
Definition records_intent (s : t) : Prop :=
  exists observe : t -> bool,
    forall constrain, observe (setConstrainScroll s constrain) = constrain.

(** C4, as stated, fails: on a controller constructed without a margin the
    call leaves the same state for [true] and for [false], so nothing of the
    argument is kept. *)
Lemma setConstrainScroll_intent_counterexample :
  let s := new {| tagName := "DIV"; scrollTop := 0; scrollLeft := 0 |}
               {| left := 0; top := 0; width := 100; height := 100 |}
               {| size_width := 1000; size_height := 800 |}
               None None in
  constrainScroll_ (setConstrainScroll s true) = false /\
  setConstrainScroll s true = setConstrainScroll s false /\
  ~ records_intent s.
Proof.
  intros s. split; [reflexivity |]. split; [reflexivity |].
  intros [observe H].
  pose proof (H true) as Ht. pose proof (H false) as Hf.
  change (setConstrainScroll s true) with (setConstrainScroll s false) in Ht.
  congruence.
Qed.

(** C4, amended. With margin zero, [setConstrainScroll] leaves the
    constrained-scroll state false whatever its argument and keeps nothing of
    the argument: the call with [true] and the call with [false] end in the
    same state.  With a margin above zero the state becomes the argument.
    No other field changes. *)
Theorem setConstrainScroll_spec (s : t) (constrain : bool) :
  let s' := setConstrainScroll s constrain in
  (margin_ s == 0 ->
   constrainScroll_ s' = false /\ s' = setConstrainScroll s (negb constrain)) /\
  (0 < margin_ s -> constrainScroll_ s' = constrain) /\
  (horizontalScrolling_ s' = horizontalScrolling_ s /\
   containerNode_ s' = containerNode_ s /\
   scrollTimer_ s' = scrollTimer_ s /\
   mouseMoveTracked s' = mouseMoveTracked s /\
   scrollDelta_ s' = scrollDelta_ s /\
   containerIsActuallyContent_ s' = containerIsActuallyContent_ s /\
   containerBounds_ s' = containerBounds_ s /\
   margin_ s' = margin_ s /\
   scrollBounds_ s' = scrollBounds_ s).
Proof.
  intros s'. split; [| split].
  - intros H. apply truthy_false in H.
    subst s'. unfold setConstrainScroll. rewrite H. split; reflexivity.
  - intros H. assert (Ht : truthy (margin_ s) = true) by (apply truthy_true; lra).
    subst s'. cbn [setConstrainScroll constrainScroll_]. rewrite Ht. reflexivity.
  - repeat split.
Qed.

Lemma setConstrainScroll_spec_witness :
  let node := {| tagName := "DIV"; scrollTop := 0; scrollLeft := 0 |} in
  let measured := {| left := 0; top := 0; width := 100; height := 100 |} in
  let viewport := {| size_width := 1000; size_height := 800 |} in
  constrainScroll_
    (setConstrainScroll (new node measured viewport None None) true) = false /\
  constrainScroll_
    (setConstrainScroll (new node measured viewport (Some 0) None) true) = false /\
  constrainScroll_
    (setConstrainScroll (new node measured viewport (Some 20) None) true) = true /\
  constrainScroll_
    (setConstrainScroll (new node measured viewport (Some 20) None) false) = false.
Proof.
  intros node measured viewport.
  destruct (setConstrainScroll_spec (new node measured viewport None None) true)
    as (Hunset & _).
  destruct (setConstrainScroll_spec (new node measured viewport (Some 0) None) true)
    as (Hzero & _).
  destruct (setConstrainScroll_spec (new node measured viewport (Some 20) None) true)
    as (_ & Hon & _).
  destruct (setConstrainScroll_spec (new node measured viewport (Some 20) None) false)
    as (_ & Hoff & _).
  split; [| split; [| split]].
  - apply Hunset. reflexivity.
  - apply Hzero. reflexivity.
  - apply Hon. reflexivity.
  - apply Hoff. reflexivity.
Defined.

End DragScrollSupportFacts.

(** ** Strings *)

Module JsStringFacts.
Import JsString.
Local Open Scope Z_scope.

Lemma indexOf_from_absent s c i :
  ~ In c (list_ascii_of_string s) -> indexOf_from s c i = -1.
Proof.
  revert i. induction s as [| a rest IH]; intros i H; cbn [indexOf_from].
  - reflexivity.
  - cbn [list_ascii_of_string] in H.
    destruct (Ascii.eqb a c) eqn:E.
    + apply Ascii.eqb_eq in E. exfalso. apply H. left. exact E.
    + apply IH. intros Hin. apply H. right. exact Hin.
Qed.

Lemma indexOf_from_first pre c post i :
  ~ In c (list_ascii_of_string pre) ->
  indexOf_from (pre ++ String c post) c i = i + Z.of_nat (String.length pre).
Proof.
  revert i. induction pre as [| a rest IH]; intros i H.
  - cbn. rewrite Ascii.eqb_refl. lia.
  - cbn [append indexOf_from String.length]. cbn [list_ascii_of_string] in H.
    destruct (Ascii.eqb a c) eqn:E.
    + apply Ascii.eqb_eq in E. exfalso. apply H. left. exact E.
    + rewrite IH by (intros Hin; apply H; right; exact Hin). lia.
Qed.

Lemma drop_past pre c post :
  drop (S (String.length pre)) (pre ++ String c post) = post.
Proof.
  induction pre as [| a rest IH].
  - reflexivity.
  - cbn [append String.length]. cbn [drop] in *. exact IH.
Qed.

(** A string that holds [c] splits at the first [c]. *)
Lemma split_at_first s c :
  In c (list_ascii_of_string s) ->
  exists pre post, s = (pre ++ String c post)%string
                   /\ ~ In c (list_ascii_of_string pre).
Proof.
  induction s as [| a rest IH]; cbn [list_ascii_of_string]; intros H.
  - destruct H.
  - destruct (Ascii.eqb a c) eqn:E.
    + apply Ascii.eqb_eq in E. subst a.
      exists EmptyString, rest. split; [reflexivity | intros []].
    + assert (Hrest : In c (list_ascii_of_string rest)).
      { destruct H as [H | H]; [| exact H].
        subst a. rewrite Ascii.eqb_refl in E. discriminate. }
      destruct (IH Hrest) as (pre & post & Hs & Hpre).
      exists (String a pre), post. split.
      * cbn [append]. rewrite Hs. reflexivity.
      * cbn [list_ascii_of_string]. intros [Ha | Hin]; [| exact (Hpre Hin)].
        subst a. rewrite Ascii.eqb_refl in E. discriminate.
Qed.

Lemma in_append_mid pre c post :
  In c (list_ascii_of_string (pre ++ String c post)).
Proof.
  induction pre as [| a rest IH]; cbn [append list_ascii_of_string].
  - left. reflexivity.
  - right. exact IH.
Qed.

Lemma neq_true a b : neq a b = true <-> a <> b.
Proof.
  destruct a as [s |], b as [s' |]; cbn [neq].
  - rewrite negb_true_iff. destruct (String.eqb_spec s s') as [E | E].
    + subst. split; [discriminate | intros H; exfalso; apply H; reflexivity].
    + split; [intros _ H; inversion H; contradiction | reflexivity].
  - split; [discriminate | reflexivity].
  - split; [discriminate | reflexivity].
  - split; [discriminate | intros H; exfalso; apply H; reflexivity].
Qed.

Lemma neq_false a b : neq a b = false <-> a = b.
Proof.
  destruct (neq a b) eqn:E.
  - apply neq_true in E. split; [discriminate | contradiction].
  - split; [intros _ | reflexivity].
    destruct a as [s |], b as [s' |]; cbn [neq] in E; try discriminate.
    + apply negb_false_iff, String.eqb_eq in E. subst. reflexivity.
    + reflexivity.
Qed.

End JsStringFacts.

(** ** goog.history.Html5History *)

Module Html5HistoryFacts.
Import JsString JsStringFacts Html5History.
Local Open Scope string_scope.

(** Runs the monadic plumbing of a method. *)
Ltac run :=
  unfold bind, get, put, ret, throw, set_this, set_window, emit, dispatchEvent,
    assertString; cbn beta iota.

(** *** Reading the token *)

(** The fragment and the token as functions of the world: what
    [getFragment_] and [getToken] return. *)
Definition fragmentOf (w : World) : option string :=
  if useFragment_ (this w) then
    let loc := href (location (window_ w)) in
    let index := indexOf loc "#" in
    Some (if (index <? 0)%Z then "" else substring loc (index + 1))
  else None.

Definition tokenOf (w : World) : string :=
  if useFragment_ (this w) then
    match fragmentOf w with Some s => s | None => "" end
  else
    match transformer_ (this w) with
    | Some transformer =>
        retrieveToken transformer (pathPrefix_ (this w)) (location (window_ w))
    | None =>
        slice (pathname (location (window_ w))) (length (pathPrefix_ (this w)))
    end.

Lemma getFragment__run w : getFragment_ w = Ok (fragmentOf w, w).
Proof.
  unfold getFragment_, fragmentOf. run.
  destruct (useFragment_ (this w)); reflexivity.
Qed.

(** [getToken] returns, and leaves the world as it was. *)
Lemma getToken_run w : getToken w = Ok (tokenOf w, w).
Proof.
  unfold getToken, tokenOf. run.
  destruct (useFragment_ (this w)) eqn:E.
  - rewrite getFragment__run. unfold fragmentOf. rewrite E. reflexivity.
  - destruct (transformer_ (this w)); reflexivity.
Qed.

Lemma getToken_returns w : exists tok, getToken w = Ok (tok, w).
Proof. exists (tokenOf w). apply getToken_run. Qed.

Lemma getToken_inv w tok w' : getToken w = Ok (tok, w') -> tok = tokenOf w /\ w' = w.
Proof. rewrite getToken_run. intros H. inversion H. split; reflexivity. Qed.

(** The token depends on the location, the mode, the prefix and the
    transformer only. *)
Lemma tokenOf_depends w1 w2 :
  location (window_ w1) = location (window_ w2) ->
  useFragment_ (this w1) = useFragment_ (this w2) ->
  pathPrefix_ (this w1) = pathPrefix_ (this w2) ->
  transformer_ (this w1) = transformer_ (this w2) ->
  tokenOf w1 = tokenOf w2.
Proof.
  intros Hl Hu Hp Ht. unfold tokenOf, fragmentOf.
  rewrite Hl, Hu, Hp, Ht. reflexivity.
Qed.

Lemma fragmentOf_depends w1 w2 :
  location (window_ w1) = location (window_ w2) ->
  useFragment_ (this w1) = useFragment_ (this w2) ->
  fragmentOf w1 = fragmentOf w2.
Proof.
  intros Hl Hu. unfold fragmentOf. rewrite Hl, Hu. reflexivity.
Qed.

(** In fragment mode the token is what follows the first '#'. *)
Lemma getToken_after_hash w pre post :
  useFragment_ (this w) = true ->
  href (location (window_ w)) = pre ++ String "#" post ->
  ~ In "#"%char (list_ascii_of_string pre) ->
  getToken w = Ok (post, w).
Proof.
  intros Hu Hloc Hpre. rewrite getToken_run.
  unfold tokenOf, fragmentOf. rewrite Hu, Hloc.
  unfold indexOf. rewrite indexOf_from_first by exact Hpre.
  destruct (Z.ltb_spec (0 + Z.of_nat (String.length pre)) 0) as [H | H]; [lia |].
  unfold substring.
  replace (Z.to_nat (Z.max 0 (0 + Z.of_nat (String.length pre) + 1)))
    with (S (String.length pre)) by lia.
  rewrite drop_past. reflexivity.
Qed.

Lemma getToken_no_hash w :
  useFragment_ (this w) = true ->
  ~ In "#"%char (list_ascii_of_string (href (location (window_ w)))) ->
  getToken w = Ok ("", w).
Proof.
  intros Hu Habs. rewrite getToken_run.
  unfold tokenOf, fragmentOf. rewrite Hu. unfold indexOf.
  rewrite indexOf_from_absent by exact Habs. reflexivity.
Qed.

(** C9. In fragment mode [getToken] returns a string for every location and
    changes nothing: the empty string when the href holds no '#', and
    otherwise what follows the first '#' of the href. *)
Theorem getToken_fragment (w : World) :
  useFragment_ (this w) = true ->
  let loc := href (location (window_ w)) in
  (exists tok, getToken w = Ok (tok, w)) /\
  (~ In "#"%char (list_ascii_of_string loc) -> getToken w = Ok ("", w)) /\
  (In "#"%char (list_ascii_of_string loc) ->
   exists pre post, loc = pre ++ String "#" post
     /\ ~ In "#"%char (list_ascii_of_string pre)
     /\ getToken w = Ok (post, w)) /\
  (forall pre post, loc = pre ++ String "#" post ->
     ~ In "#"%char (list_ascii_of_string pre) -> getToken w = Ok (post, w)).
Proof.
  intros Hu loc.
  split; [apply getToken_returns |].
  split; [apply getToken_no_hash, Hu |].
  split.
  - intros Hin. destruct (split_at_first _ _ Hin) as (pre & post & Hloc & Hpre).
    exists pre, post. split; [exact Hloc |]. split; [exact Hpre |].
    apply (getToken_after_hash w pre post); assumption.
  - intros pre post Hloc Hpre. apply (getToken_after_hash w pre post); assumption.
Qed.

Lemma getToken_fragment_witness :
  getToken SampleHost.inboxChannel = Ok ("inbox", SampleHost.inboxChannel).
Proof.
  assert (Hu : useFragment_ (this SampleHost.inboxChannel) = true) by reflexivity.
  destruct (getToken_fragment SampleHost.inboxChannel Hu) as (_ & _ & _ & H).
  apply (H "http://example.org/app" "inbox").
  - reflexivity.
  - vm_compute. intuition discriminate.
Defined.

(** *** Enabling and disabling *)

Lemma setEnabled_same w enable :
  enable = enabled_ (this w) -> setEnabled enable w = Ok (tt, w).
Proof.
  intros H. unfold setEnabled. run.
  rewrite H, Bool.eqb_reflx. reflexivity.
Qed.

Lemma setEnabled_on w :
  enabled_ (this w) = false ->
  setEnabled true w =
  Ok (tt, {| this := with_enabled true (this w);
             window_ := window_ w;
             trace := trace w ++ [Dispatch {| token := tokenOf w;
                                              isNavigation := false |}] |}).
Proof.
  intros H. unfold setEnabled. run. rewrite H. cbn [Bool.eqb].
  rewrite getToken_run. cbn [this window_ trace].
  erewrite tokenOf_depends; reflexivity.
Qed.

Lemma setEnabled_off w :
  enabled_ (this w) = true ->
  setEnabled false w =
  Ok (tt, {| this := with_enabled false (this w);
             window_ := window_ w;
             trace := trace w |}).
Proof.
  intros H. unfold setEnabled. run. rewrite H. reflexivity.
Qed.

(** C6. [setEnabled(true)] on a disabled channel sets the flag and emits one
    notification, not browser-initiated, that carries the token [getToken]
    returns; [setEnabled(false)] on an enabled channel clears the flag and
    emits nothing; [setEnabled] with the value the channel already has
    changes nothing and emits nothing. *)
Theorem setEnabled_spec (w : World) :
  (enabled_ (this w) = false ->
   exists tok w',
     setEnabled true w = Ok (tt, w') /\
     getToken w = Ok (tok, w) /\ getToken w' = Ok (tok, w') /\
     trace w' = (trace w ++ [Dispatch {| token := tok; isNavigation := false |}])%list /\
     this w' = with_enabled true (this w) /\
     window_ w' = window_ w) /\
  (enabled_ (this w) = true ->
   exists w',
     setEnabled false w = Ok (tt, w') /\
     trace w' = trace w /\
     this w' = with_enabled false (this w) /\
     window_ w' = window_ w) /\
  (forall enable, enable = enabled_ (this w) -> setEnabled enable w = Ok (tt, w)).
Proof.
  split; [| split].
  - intros H. eexists. eexists.
    split; [apply setEnabled_on; exact H |].
    split; [apply getToken_run |].
    split; [| repeat split].
    rewrite getToken_run. erewrite tokenOf_depends; reflexivity.
  - intros H. eexists.
    split; [apply setEnabled_off; exact H | repeat split].
  - intros enable H. apply setEnabled_same. exact H.
Qed.

Lemma setEnabled_spec_witness :
  exists w',
    setEnabled true SampleHost.inboxChannel = Ok (tt, w') /\
    trace w' = [Dispatch {| token := "inbox"; isNavigation := false |}] /\
    setEnabled true w' = Ok (tt, w') /\
    exists w'', setEnabled false w' = Ok (tt, w'') /\ trace w'' = trace w'.
Proof.
  destruct (setEnabled_spec SampleHost.inboxChannel) as (Hon & _ & _).
  destruct Hon as (tok & w' & Hrun & Htok & _ & Htrace & Hthis & _);
    [reflexivity |].
  apply getToken_inv in Htok. destruct Htok as [Htok _].
  exists w'. split; [exact Hrun |].
  split; [rewrite Htrace, Htok; reflexivity |].
  destruct (setEnabled_spec w') as (_ & Hoff & Hsame).
  split.
  - apply Hsame. rewrite Hthis. reflexivity.
  - destruct Hoff as (w'' & Hrun' & Htrace' & _); [rewrite Hthis; reflexivity |].
    exists w''. split; assumption.
Defined.

(** *** Signals from the host *)

Lemma onHistoryEvent__disabled w e :
  enabled_ (this w) = false -> onHistoryEvent_ e w = Ok (tt, w).
Proof.
  intros H. unfold onHistoryEvent_. run. rewrite H. reflexivity.
Qed.

Lemma signal_disabled w ty :
  enabled_ (this w) = false -> signal ty w = Ok (tt, w).
Proof.
  intros H. unfold signal. run.
  destruct ty;
    match goal with
    | |- (if ?c then _ else _) _ = _ => destruct c
    end; try reflexivity; apply onHistoryEvent__disabled; exact H.
Qed.

(** The host raises the events of [tys], one after the other. *)
Fixpoint signals (tys : list EventType) : M unit :=
  match tys with
  | [] => ret tt
  | ty :: rest => signal ty ;;; signals rest
  end.

Lemma signals_disabled w tys :
  enabled_ (this w) = false -> signals tys w = Ok (tt, w).
Proof.
  intros H. induction tys as [| ty rest IH]; cbn [signals].
  - reflexivity.
  - unfold bind. rewrite signal_disabled by exact H. exact IH.
Qed.

(** C10. While the channel is disabled, a history or fragment change signal
    dispatches nothing and leaves the whole world as it was, the last
    observed fragment included; after any number of such signals, enabling
    the channel emits the one notification of [setEnabled], not
    browser-initiated, and the last observed fragment is still the one from
    before. *)
Theorem onHistoryEvent__while_disabled (w : World) :
  enabled_ (this w) = false ->
  (forall e, onHistoryEvent_ e w = Ok (tt, w)) /\
  (forall ty, signal ty w = Ok (tt, w)) /\
  (forall tys, exists tok w',
     (signals tys ;;; setEnabled true) w = Ok (tt, w') /\
     getToken w = Ok (tok, w) /\
     trace w' = (trace w ++ [Dispatch {| token := tok; isNavigation := false |}])%list /\
     lastFragment_ (this w') = lastFragment_ (this w)).
Proof.
  intros H. split; [| split].
  - intros e. apply onHistoryEvent__disabled. exact H.
  - intros ty. apply signal_disabled. exact H.
  - intros tys. exists (tokenOf w). eexists. split.
    + unfold bind. rewrite signals_disabled by exact H.
      apply setEnabled_on. exact H.
    + split; [apply getToken_run | split; reflexivity].
Qed.

Lemma onHistoryEvent__while_disabled_witness :
  onHistoryEvent_ {| type := POPSTATE |} SampleHost.inboxChannel
    = Ok (tt, SampleHost.inboxChannel) /\
  signal HASHCHANGE SampleHost.inboxChannel = Ok (tt, SampleHost.inboxChannel).
Proof.
  assert (H : enabled_ (this SampleHost.inboxChannel) = false) by reflexivity.
  destruct (onHistoryEvent__while_disabled SampleHost.inboxChannel H)
    as (Hevent & Hsignal & _).
  split; [apply Hevent | apply Hsignal].
Defined.

(** The world after a notification of the event handler. *)
Definition notified (w : World) : World :=
  {| this := with_lastFragment (fragmentOf w) (this w);
     window_ := window_ w;
     trace := trace w ++ [Dispatch {| token := tokenOf w; isNavigation := true |}] |}.

Lemma onHistoryEvent__popstate w :
  enabled_ (this w) = true ->
  onHistoryEvent_ {| type := POPSTATE |} w = Ok (tt, notified w).
Proof.
  intros H. unfold onHistoryEvent_. run. rewrite H.
  rewrite getFragment__run. cbn [type EventType_eqb orb].
  rewrite getToken_run. cbn [this window_ trace]. unfold notified.
  erewrite tokenOf_depends; reflexivity.
Qed.

Lemma onHistoryEvent__hashchange_new w :
  enabled_ (this w) = true ->
  fragmentOf w <> lastFragment_ (this w) ->
  onHistoryEvent_ {| type := HASHCHANGE |} w = Ok (tt, notified w).
Proof.
  intros H Hneq. apply neq_true in Hneq.
  unfold onHistoryEvent_. run. rewrite H.
  rewrite getFragment__run. cbn [type EventType_eqb orb]. rewrite Hneq.
  rewrite getToken_run. cbn [this window_ trace]. unfold notified.
  erewrite tokenOf_depends; reflexivity.
Qed.

Lemma onHistoryEvent__hashchange_same w :
  enabled_ (this w) = true ->
  fragmentOf w = lastFragment_ (this w) ->
  onHistoryEvent_ {| type := HASHCHANGE |} w = Ok (tt, w).
Proof.
  intros H Heq. apply neq_false in Heq.
  unfold onHistoryEvent_. run. rewrite H.
  rewrite getFragment__run. cbn [type EventType_eqb orb]. rewrite Heq.
  reflexivity.
Qed.

(** C7. On an enabled channel a POPSTATE signal always dispatches one
    browser-initiated notification and records the fragment; a HASHCHANGE
    signal does the same when the fragment differs from the last observed
    one and does nothing when it equals it; so a POPSTATE followed at once
    by a HASHCHANGE, the location being the same, dispatches one
    notification. *)
Theorem onHistoryEvent__spec (w : World) :
  enabled_ (this w) = true ->
  exists fragment tok,
    getFragment_ w = Ok (fragment, w) /\ getToken w = Ok (tok, w) /\
    let event := Dispatch {| token := tok; isNavigation := true |} in
    (exists w',
       onHistoryEvent_ {| type := POPSTATE |} w = Ok (tt, w') /\
       trace w' = (trace w ++ [event])%list /\
       lastFragment_ (this w') = fragment) /\
    (fragment <> lastFragment_ (this w) ->
     exists w',
       onHistoryEvent_ {| type := HASHCHANGE |} w = Ok (tt, w') /\
       trace w' = (trace w ++ [event])%list /\
       lastFragment_ (this w') = fragment) /\
    (fragment = lastFragment_ (this w) ->
     onHistoryEvent_ {| type := HASHCHANGE |} w = Ok (tt, w)) /\
    (exists w',
       (onHistoryEvent_ {| type := POPSTATE |} ;;;
        onHistoryEvent_ {| type := HASHCHANGE |}) w = Ok (tt, w') /\
       trace w' = (trace w ++ [event])%list).
Proof.
  intros H. exists (fragmentOf w), (tokenOf w).
  split; [apply getFragment__run |]. split; [apply getToken_run |].
  intros event. split; [| split; [| split]].
  - exists (notified w). split; [apply onHistoryEvent__popstate, H |].
    split; reflexivity.
  - intros Hneq. exists (notified w).
    split; [apply onHistoryEvent__hashchange_new; assumption |].
    split; reflexivity.
  - intros Heq. apply onHistoryEvent__hashchange_same; assumption.
  - exists (notified w). split; [| reflexivity].
    unfold bind. rewrite onHistoryEvent__popstate by exact H.
    apply onHistoryEvent__hashchange_same; [exact H |].
    unfold notified. cbn [this with_lastFragment lastFragment_].
    apply fragmentOf_depends; reflexivity.
Qed.

(** The sample channel, enabled. *)
Definition enabledInbox : World :=
  {| this := with_enabled true (this SampleHost.inboxChannel);
     window_ := window_ SampleHost.inboxChannel;
     trace := [] |}.

Lemma onHistoryEvent__spec_witness :
  exists w',
    (onHistoryEvent_ {| type := POPSTATE |} ;;;
     onHistoryEvent_ {| type := HASHCHANGE |}) enabledInbox = Ok (tt, w') /\
    trace w' = [Dispatch {| token := "inbox"; isNavigation := true |}].
Proof.
  assert (H : enabled_ (this enabledInbox) = true) by reflexivity.
  destruct (onHistoryEvent__spec enabledInbox H)
    as (fragment & tok & _ & Htok & _ & _ & _ & w' & Hrun & Htrace).
  apply getToken_inv in Htok. destruct Htok as [Htok _].
  exists w'. split; [exact Hrun |].
  rewrite Htrace, Htok. reflexivity.
Defined.

(** *** Construction *)

Lemma isSupported_true opt_win window :
  isSupported opt_win window = true <->
  exists h, history (match opt_win with Some w => w | None => window end) = Some h
            /\ pushState_defined h = true.
Proof.
  unfold isSupported.
  destruct (history match opt_win with Some w => w | None => window end) as [h |].
  - split.
    + intros H. exists h. split; [reflexivity | exact H].
    + intros (h' & Hh & Hp). inversion Hh. subst. exact Hp.
  - split; [discriminate | intros (h' & Hh & _); discriminate].
Qed.

(** C8. The constructor throws an assertion error exactly when
    [isSupported] is false of the window it is given (the global window when
    none is given), that is when the window has no [history] or its
    [history] has no [pushState]; otherwise it returns a channel that holds
    that window, untouched but for the two listeners.  [isSupported] is a
    function of the [history] of the window and of nothing else. *)
Theorem new_requires_support (opt_win : option Window)
    (opt_transformer : option TokenTransformer) (window : Window) :
  let win := match opt_win with Some w => w | None => window end in
  ((exists e, new opt_win opt_transformer window = Throw e) <->
   isSupported opt_win window = false) /\
  (isSupported opt_win window = false ->
   new opt_win opt_transformer window
   = Throw (AssertionError "HTML5 history is not supported.")) /\
  (isSupported opt_win window = true ->
   exists w, new opt_win opt_transformer window = Ok w /\
     location (window_ w) = location win /\
     history (window_ w) = history win /\
     document_title (window_ w) = document_title win /\
     enabled_ (this w) = false /\ trace w = []) /\
  (isSupported opt_win window = false <->
   history win = None \/
   exists h, history win = Some h /\ pushState_defined h = false) /\
  (forall win' window',
     history win' = history win ->
     isSupported (Some win') window' = isSupported opt_win window).
Proof.
  intros win. unfold new, assert.
  split; [| split; [| split; [| split]]].
  - destruct (isSupported opt_win window).
    + split; [intros [e H]; discriminate | discriminate].
    + split; [reflexivity | intros _; eexists; reflexivity].
  - intros H. rewrite H. reflexivity.
  - intros H. rewrite H. eexists. split; [reflexivity |].
    repeat split.
  - unfold isSupported. fold win. destruct (history win) as [h |].
    + split.
      * intros H. right. exists h. split; [reflexivity | exact H].
      * intros [H | (h' & Hh & Hp)]; [discriminate |].
        inversion Hh. subst. exact Hp.
    + split; [intros _; left; reflexivity | reflexivity].
  - intros win' window' H. unfold isSupported. fold win. rewrite H. reflexivity.
Qed.

Lemma new_requires_support_witness :
  new (Some SampleHost.legacyWindow) None SampleHost.inboxWindow
    = Throw (AssertionError "HTML5 history is not supported.") /\
  new None None SampleHost.bareWindow
    = Throw (AssertionError "HTML5 history is not supported.") /\
  exists w, new (Some SampleHost.inboxWindow) None SampleHost.bareWindow = Ok w
            /\ history (window_ w) = history SampleHost.inboxWindow.
Proof.
  destruct (new_requires_support (Some SampleHost.legacyWindow) None
              SampleHost.inboxWindow) as (_ & Hlegacy & _).
  destruct (new_requires_support None None SampleHost.bareWindow)
    as (_ & Hbare & _).
  destruct (new_requires_support (Some SampleHost.inboxWindow) None
              SampleHost.bareWindow) as (_ & _ & Hok & _).
  split; [apply Hlegacy; reflexivity |].
  split; [apply Hbare; reflexivity |].
  destruct Hok as (w & Hw & _ & Hh & _); [reflexivity |].
  exists w. split; assumption.
Defined.

(** *** Setting and replacing the token *)

(** What [entryTitle] and [getUrl_] return. *)
Definition titleOf (opt_title : option string) (w : World) : string :=
  match or_else (or_else opt_title (document_title (window_ w))) (Some "") with
  | Some s => s
  | None => ""
  end.

Definition urlOf (tok : string) (w : World) : string :=
  if useFragment_ (this w) then "#" ++ tok
  else
    match transformer_ (this w) with
    | Some transformer =>
        createUrl transformer tok (pathPrefix_ (this w)) (location (window_ w))
    | None => pathPrefix_ (this w) ++ tok ++ search (location (window_ w))
    end.

Lemma entryTitle_run opt_title w :
  entryTitle opt_title w = Ok (titleOf opt_title w, w).
Proof.
  unfold entryTitle, titleOf. run.
  destruct (or_else (or_else opt_title (document_title (window_ w))) (Some ""));
    reflexivity.
Qed.

Lemma getUrl__run tok w : getUrl_ tok w = Ok (urlOf tok w, w).
Proof.
  unfold getUrl_, urlOf. run.
  destruct (useFragment_ (this w)); [reflexivity |].
  destruct (transformer_ (this w)); reflexivity.
Qed.

(** The world after a history call with [url] and the notification of
    [tok]. *)
Definition moved (call : Effect) (url tok : string) (w : World) : World :=
  {| this := this w;
     window_ := Window_go url (window_ w);
     trace := trace w ++ [call; Dispatch {| token := tok; isNavigation := false |}] |}.

Lemma setToken_same tok opt_title w :
  tokenOf w = tok -> setToken tok opt_title w = Ok (tt, w).
Proof.
  intros H. unfold setToken. run. rewrite getToken_run, H, String.eqb_refl.
  reflexivity.
Qed.

Lemma setToken_other tok opt_title w :
  tokenOf w <> tok ->
  setToken tok opt_title w
  = Ok (tt, moved (PushState (titleOf opt_title w) (urlOf tok w)) (urlOf tok w) tok w).
Proof.
  intros H. unfold setToken. run. rewrite getToken_run.
  destruct (String.eqb_spec tok (tokenOf w)) as [E | _]; [congruence |].
  rewrite entryTitle_run, getUrl__run. unfold pushState. run.
  unfold moved. cbn [this window_ trace].
  rewrite <- app_assoc. reflexivity.
Qed.

Lemma replaceToken_run tok opt_title w :
  replaceToken tok opt_title w
  = Ok (tt, moved (ReplaceState (titleOf opt_title w) (urlOf tok w)) (urlOf tok w) tok w).
Proof.
  unfold replaceToken. run.
  rewrite entryTitle_run, getUrl__run. unfold replaceState. run.
  unfold moved. cbn [this window_ trace].
  rewrite <- app_assoc. reflexivity.
Qed.

Lemma pushes_app l l' : pushes (l ++ l') = (pushes l ++ pushes l')%list.
Proof.
  induction l as [| e l IH]; [reflexivity |].
  destruct e; cbn [app pushes]; rewrite IH; reflexivity.
Qed.

Lemma getToken_is tok w : getToken w = Ok (tok, w) <-> tokenOf w = tok.
Proof.
  rewrite getToken_run. split; [intros H; inversion H; reflexivity | intros ->; reflexivity].
Qed.

(** C5, as stated, fails: when the token is already the current one, two
    consecutive [setToken] calls issue no push at all, not one. *)
Lemma setToken_twice_counterexample :
  new (Some SampleHost.inboxWindow) None SampleHost.inboxWindow
    = Ok SampleHost.inboxChannel /\
  getToken SampleHost.inboxChannel = Ok ("inbox", SampleHost.inboxChannel) /\
  exists w2,
    (setToken "inbox" None ;;; setToken "inbox" None) SampleHost.inboxChannel
      = Ok (tt, w2) /\
    pushes (trace w2) = [] /\
    List.length (pushes (trace w2)) <> 1%nat.
Proof.
  split; [reflexivity |]. split; [reflexivity |].
  exists SampleHost.inboxChannel.
  split; [reflexivity |]. split; [reflexivity |]. cbn. discriminate.
Qed.

(** C5, amended. [setToken t] does nothing when [t] is the token
    [getToken] reads, and otherwise issues one push and one notification, not
    browser-initiated.  Two consecutive [setToken t] calls issue no push when
    [t] was the token before the first, and one push when it was not and the
    host location reads [t] back after the first: the second call is then a
    no-op.  [replaceToken t] issues one replace and one notification on
    every call, whatever the current token. *)
Theorem setToken_replaceToken_spec (w : World) (t : string)
    (title title' : option string) :
  (getToken w = Ok (t, w) -> setToken t title w = Ok (tt, w)) /\
  (getToken w <> Ok (t, w) ->
   exists ttl url w1,
     entryTitle title w = Ok (ttl, w) /\ getUrl_ t w = Ok (url, w) /\
     setToken t title w = Ok (tt, w1) /\
     trace w1 = (trace w ++ [PushState ttl url;
                             Dispatch {| token := t; isNavigation := false |}])%list /\
     this w1 = this w /\
     window_ w1 = Window_go url (window_ w)) /\
  (exists w1 w2,
     setToken t title w = Ok (tt, w1) /\ setToken t title' w1 = Ok (tt, w2) /\
     (getToken w = Ok (t, w) -> pushes (trace w2) = pushes (trace w)) /\
     (getToken w <> Ok (t, w) -> getToken w1 = Ok (t, w1) ->
      w2 = w1 /\
      exists push, pushes (trace w2) = (pushes (trace w) ++ [push])%list)) /\
  (exists ttl url w1,
     entryTitle title w = Ok (ttl, w) /\ getUrl_ t w = Ok (url, w) /\
     replaceToken t title w = Ok (tt, w1) /\
     trace w1 = (trace w ++ [ReplaceState ttl url;
                             Dispatch {| token := t; isNavigation := false |}])%list /\
     this w1 = this w /\
     window_ w1 = Window_go url (window_ w)).
Proof.
  split; [| split; [| split]].
  - intros H. apply setToken_same, getToken_is, H.
  - intros H. rewrite getToken_is in H.
    exists (titleOf title w), (urlOf t w). eexists.
    split; [apply entryTitle_run |]. split; [apply getUrl__run |].
    split; [apply setToken_other, H |]. repeat split.
  - destruct (String.eqb_spec (tokenOf w) t) as [E | E].
    + exists w, w.
      split; [apply setToken_same, E |]. split; [apply setToken_same, E |].
      split; [reflexivity |].
      intros H. exfalso. apply H. apply getToken_is, E.
    + destruct (String.eqb_spec
                  (tokenOf (moved (PushState (titleOf title w) (urlOf t w))
                              (urlOf t w) t w)) t) as [E' | E'].
      * eexists. eexists.
        split; [apply setToken_other, E |].
        split; [apply setToken_same, E' |].
        split; [intros H; apply getToken_is in H; contradiction |].
        intros _ _. split; [reflexivity |].
        exists (titleOf title w, urlOf t w).
        unfold moved. cbn [trace]. rewrite pushes_app. reflexivity.
      * eexists. eexists.
        split; [apply setToken_other, E |].
        split; [apply setToken_other, E' |].
        split; [intros H; apply getToken_is in H; contradiction |].
        intros _ H. apply getToken_is in H. contradiction.
  - exists (titleOf title w), (urlOf t w). eexists.
    split; [apply entryTitle_run |]. split; [apply getUrl__run |].
    split; [apply replaceToken_run |]. repeat split.
Qed.

Lemma before_absent c s : ~ In c (list_ascii_of_string (SampleHost.before c s)).
Proof.
  induction s as [| a rest IH]; cbn [SampleHost.before].
  - intros [].
  - destruct (Ascii.eqb a c) eqn:E; [intros [] |].
    cbn [list_ascii_of_string]. intros [H | H]; [| exact (IH H)].
    subst a. rewrite Ascii.eqb_refl in E. discriminate.
Qed.

(** On the sample host, in fragment mode, the location reads back every
    token that was pushed: there the second of two [setToken t] calls is
    always a no-op. *)
Lemma sample_host_reads_back w t call :
  navigate (window_ w) = SampleHost.resolve ->
  useFragment_ (this w) = true ->
  getToken (moved call (urlOf t w) t w) = Ok (t, moved call (urlOf t w) t w).
Proof.
  intros Hnav Hu.
  apply (getToken_after_hash _ (SampleHost.before "#" (href (location (window_ w)))) t).
  - exact Hu.
  - unfold moved, urlOf. rewrite Hu. cbn [window_ Window_go location].
    rewrite Hnav. reflexivity.
  - apply before_absent.
Qed.

Lemma setToken_replaceToken_spec_witness :
  setToken "inbox" None SampleHost.inboxChannel = Ok (tt, SampleHost.inboxChannel) /\
  (exists w1,
     setToken "sent" None SampleHost.inboxChannel = Ok (tt, w1) /\
     trace w1 = [PushState "Mail" "#sent";
                 Dispatch {| token := "sent"; isNavigation := false |}]) /\
  (exists w1 w2,
     setToken "sent" None SampleHost.inboxChannel = Ok (tt, w1) /\
     setToken "sent" None w1 = Ok (tt, w2) /\
     w2 = w1 /\
     exists push, pushes (trace w2) = [push]).
Proof.
  destruct (setToken_replaceToken_spec SampleHost.inboxChannel "inbox" None None)
    as (Hsame & _).
  destruct (setToken_replaceToken_spec SampleHost.inboxChannel "sent" None None)
    as (_ & Hother & Htwice & _).
  assert (Hneq : getToken SampleHost.inboxChannel
                 <> Ok ("sent", SampleHost.inboxChannel)).
  { intros H. vm_compute in H. discriminate H. }
  split; [apply Hsame; reflexivity |].
  split.
  - destruct (Hother Hneq) as (ttl & url & w1 & Httl & Hurl & Hrun & Htrace & _).
    exists w1. split; [exact Hrun |].
    vm_compute in Httl. vm_compute in Hurl.
    inversion Httl. inversion Hurl. subst ttl url. exact Htrace.
  - destruct Htwice as (w1 & w2 & Hrun1 & Hrun2 & _ & Hone).
    exists w1, w2. split; [exact Hrun1 |]. split; [exact Hrun2 |].
    assert (Hback : getToken w1 = Ok ("sent", w1)).
    { vm_compute in Hrun1. inversion Hrun1. reflexivity. }
    destruct (Hone Hneq Hback) as (Heq & push & Hpush).
    split; [exact Heq |]. exists push. exact Hpush.
Defined.

End Html5HistoryFacts.

(** * Further properties *)

(** ** goog.fx.DragScrollSupport: samples, zones and margins *)

Module DragScrollSupportMore.
Import JsNum JsNumFacts DragScrollSupport DragScrollSupportFacts.
Local Open Scope Q_scope.

(** The sample lies in the trigger zone along every axis that is looked at:
    always the vertical one, the horizontal one when horizontal scrolling is
    allowed. *)
Definition in_zone (s : t) (px py : number) : Prop :=
  (horizontalScrolling_ s = true ->
   left (scrollBounds_ s) <= px /\
   px <= left (scrollBounds_ s) + width (scrollBounds_ s)) /\
  top (scrollBounds_ s) <= py /\
  py <= top (scrollBounds_ s) + height (scrollBounds_ s).

Lemma calculateScrollDelta_values c zoneMin zoneLength :
  calculateScrollDelta c zoneMin zoneLength = -8 \/
  calculateScrollDelta c zoneMin zoneLength = 0 \/
  calculateScrollDelta c zoneMin zoneLength = 8.
Proof.
  unfold calculateScrollDelta.
  destruct (lt c zoneMin); [left; reflexivity |].
  destruct (gt c (zoneMin + zoneLength)); [right; right | right; left]; reflexivity.
Qed.

Lemma onMouseMove_no_delta s e documentScroll :
  negb (truthy (x (scrollDelta_ (onMouseMove s e documentScroll))))
  && negb (truthy (y (scrollDelta_ (onMouseMove s e documentScroll)))) = true
  <-> in_zone s (sampleX s e documentScroll) (sampleY s e documentScroll).
Proof.
  unfold onMouseMove, in_zone, sampleX, sampleY. cbn [scrollDelta_ x y].
  rewrite andb_true_iff, !negb_true_iff, (calculateScrollDelta_zero (clientY e + _)).
  destruct (horizontalScrolling_ s).
  - rewrite calculateScrollDelta_zero. tauto.
  - split.
    + intros [_ H]. split; [discriminate | exact H].
    + intros [_ H]. split; [reflexivity | exact H].
Qed.

(** The timer after a sample, in terms of the zone and of the container. *)
Lemma onMouseMove_running s e documentScroll :
  let px := sampleX s e documentScroll in
  let py := sampleY s e documentScroll in
  enabled (scrollTimer_ (onMouseMove s e documentScroll)) = true <->
  ~ in_zone s px py /\
  (constrainScroll_ s = true -> within (containerBounds_ s) px py).
Proof.
  intros px py. rewrite onMouseMove_timer.
  pose proof (onMouseMove_no_delta s e documentScroll) as Hz.
  pose proof (isInContainerBounds_true s px py) as Hin.
  fold px py in Hz. fold px py.
  destruct (negb (truthy (x (scrollDelta_ (onMouseMove s e documentScroll))))
            && negb (truthy (y (scrollDelta_ (onMouseMove s e documentScroll)))));
    destruct (constrainScroll_ s);
    destruct (isInContainerBounds_ s px py); cbn [negb orb andb];
    (split;
     [ intros Ht;
       first [ discriminate Ht
             | split;
               [ intros Hzone; apply Hz in Hzone; discriminate Hzone
               | intros Hc; first [discriminate Hc | apply Hin; reflexivity] ] ]
     | intros [Hn Hc];
       first [ reflexivity
             | exfalso; apply Hn; apply Hz; reflexivity
             | specialize (Hc eq_refl); apply Hin in Hc; discriminate Hc ] ]).
Qed.

Lemma new_scrollBounds_nonzero node measured viewport m ext :
  ~ m == 0 ->
  let s := new node measured viewport (Some m) ext in
  scrollBounds_ s = constrainBounds_ m (containerBounds_ s) /\ margin_ s = m.
Proof.
  intros H. unfold new. cbn [scrollBounds_ containerBounds_ margin_].
  destruct (truthy m) eqn:E; [split; reflexivity |].
  reflect_cmp. contradiction.
Qed.


(** X1. Whatever the sample, the two components of the scroll delta that
    [onMouseMove] stores are -8, 0 or 8; after
    [setHorizontalScrolling(false)] the horizontal one is 0, and the vertical
    one does not depend on the horizontal setting. *)
Theorem onMouseMove_delta_steps (s : t) (e : MouseEvent) (documentScroll : Coordinate)
    (scrolling : bool) :
  let d := scrollDelta_ (onMouseMove s e documentScroll) in
  (x d = -8 \/ x d = 0 \/ x d = 8) /\
  (y d = -8 \/ y d = 0 \/ y d = 8) /\
  x (scrollDelta_ (onMouseMove (setHorizontalScrolling s false) e documentScroll)) = 0 /\
  y (scrollDelta_ (onMouseMove (setHorizontalScrolling s scrolling) e documentScroll))
  = y d.
Proof.
  unfold onMouseMove. cbn [scrollDelta_ x y setHorizontalScrolling
    horizontalScrolling_ scrollBounds_ containerIsActuallyContent_ eventOffset].
  split; [| split; [| split; reflexivity]].
  - destruct (horizontalScrolling_ s);
      [apply calculateScrollDelta_values | right; left; reflexivity].
  - apply calculateScrollDelta_values.
Qed.



(** X3. Were scrolling constrained to the container while the trigger zone
    is the container itself, no sample would ever leave the timer running:
    this is why [setConstrainScroll] refuses to constrain without a margin. *)
Theorem constrained_without_margin_never_runs (s : t) (e : MouseEvent)
    (documentScroll : Coordinate) :
  scrollBounds_ s = containerBounds_ s ->
  constrainScroll_ s = true ->
  enabled (scrollTimer_ (onMouseMove s e documentScroll)) = false.
Proof.
  intros Hsb Hc. apply not_true_iff_false. rewrite onMouseMove_running.
  intros [Hzone Hin]. apply Hzone. specialize (Hin Hc).
  unfold in_zone, within in *. rewrite Hsb. tauto.
Qed.

Lemma constrained_without_margin_never_runs_witness :
  let bounds := {| left := 100; top := 100; width := 200; height := 200 |} in
  let s := {| constrainScroll_ := true; horizontalScrolling_ := true;
              containerNode_ := {| tagName := "DIV"; scrollTop := 0; scrollLeft := 0 |};
              scrollTimer_ := {| enabled := true |}; mouseMoveTracked := true;
              scrollDelta_ := {| x := 0; y := 8 |};
              containerIsActuallyContent_ := false;
              containerBounds_ := bounds; margin_ := 0; scrollBounds_ := bounds |} in
  enabled (scrollTimer_ (onMouseMove s {| clientX := 150; clientY := 50 |}
                           {| x := 0; y := 0 |})) = false.
Proof.
  intros bounds s.
  apply (constrained_without_margin_never_runs s); reflexivity.
Defined.






(** X6. A negative margin is not rejected: the trigger zone is then the
    container bounds moved out by the size of the margin on each side, so a
    container of non-negative width and height lies within its trigger
    zone. *)
Theorem negative_margin_widens_zone (node : Element) (measured : Rect)
    (viewport : Size) (margin : number) (ext : option bool) (px py : number) :
  margin < 0 ->
  let s := new node measured viewport (Some margin) ext in
  let cb := containerBounds_ s in
  let sb := scrollBounds_ s in
  0 <= width cb -> 0 <= height cb ->
  (left sb == left cb + margin /\ width sb == width cb - 2 * margin /\
   top sb == top cb + margin /\ height sb == height cb - 2 * margin) /\
  (within cb px py -> within sb px py).
Proof.
  intros Hm s cb sb Hw Hh.
  assert (Hsb : sb = constrainBounds_ margin cb)
    by (apply new_scrollBounds_nonzero; lra).
  destruct (constrainBounds_inset cb (margin := margin))
    as (Hl & Ht & Hw' & Hh'); [lra |].
  rewrite <- Hsb in Hl, Ht, Hw', Hh'.
  assert (Ex : inset margin (width cb) == margin).
  { unfold inset.
    destruct (Math_min_cases margin (width cb * (1 # 4))) as [[H E] | [H E]];
      unfold Math_min in E; rewrite E; lra. }
  assert (Ey : inset margin (height cb) == margin).
  { unfold inset.
    destruct (Math_min_cases margin (height cb * (1 # 4))) as [[H E] | [H E]];
      unfold Math_min in E; rewrite E; lra. }
  assert (Hfour : left sb == left cb + margin /\ width sb == width cb - 2 * margin /\
                  top sb == top cb + margin /\ height sb == height cb - 2 * margin).
  { rewrite Hl, Ht, Hw', Hh'. repeat split; lra. }
  split; [exact Hfour |].
  destruct Hfour as (F1 & F2 & F3 & F4).
  unfold within. rewrite F1, F2, F3, F4. intros (H1 & H2 & H3 & H4).
  repeat split; lra.
Qed.

Lemma negative_margin_widens_zone_witness :
  let s := new {| tagName := "DIV"; scrollTop := 0; scrollLeft := 0 |}
               {| left := 100; top := 100; width := 200; height := 200 |}
               {| size_width := 1000; size_height := 800 |} (Some (-10)) None in
  left (scrollBounds_ s) == 90 /\ width (scrollBounds_ s) == 220.
Proof.
  intros s.
  assert (Hm : -10 < 0) by reflexivity.
  destruct (negative_margin_widens_zone
              {| tagName := "DIV"; scrollTop := 0; scrollLeft := 0 |}
              {| left := 100; top := 100; width := 200; height := 200 |}
              {| size_width := 1000; size_height := 800 |} None 0 0 Hm)
    as [(Hl & Hw & _) _].
  - vm_compute. discriminate.
  - vm_compute. discriminate.
  - split; [rewrite Hl | rewrite Hw]; reflexivity.
Defined.

(** X7. Feeding the same sample twice changes nothing the second time:
    [onMouseMove] is idempotent. *)
Theorem onMouseMove_idempotent (s : t) (e : MouseEvent) (documentScroll : Coordinate) :
  onMouseMove (onMouseMove s e documentScroll) e documentScroll
  = onMouseMove s e documentScroll.
Proof.
  destruct s as [cs hs node [running] tracked delta content cb m sb].
  unfold onMouseMove, eventOffset, isInContainerBounds_.
  cbn [constrainScroll_ horizontalScrolling_ containerNode_ scrollTimer_
       mouseMoveTracked scrollDelta_ containerIsActuallyContent_ containerBounds_
       margin_ scrollBounds_].
  f_equal.
  match goal with
  | |- _ = (if ?c then _ else _) => destruct c
  end.
  - reflexivity.
  - destruct running; reflexivity.
Qed.

(** X8. When the container is the BODY or HTML element, the constructor
    takes the width and height of the container bounds from the viewport,
    and [onMouseMove] ignores the scroll position of the document. *)
Theorem content_container_uses_viewport (node : Element) (measured : Rect)
    (viewport : Size) (opt_margin : option number) (ext : option bool)
    (e : MouseEvent) (scroll scroll' : Coordinate) :
  tagName node = "BODY"%string \/ tagName node = "HTML"%string ->
  let s := new node measured viewport opt_margin ext in
  containerBounds_ s
  = {| left := left measured; top := top measured;
       width := size_width viewport; height := size_height viewport |} /\
  onMouseMove s e scroll = onMouseMove s e scroll'.
Proof.
  intros Htag s.
  assert (Hc : containerIsActuallyContent_ s = true).
  { subst s. unfold new. cbn [containerIsActuallyContent_].
    destruct Htag as [H | H]; rewrite H; reflexivity. }
  split.
  - subst s. unfold new in *. cbn [containerBounds_ containerIsActuallyContent_] in *.
    rewrite Hc. reflexivity.
  - unfold onMouseMove, eventOffset. rewrite Hc. reflexivity.
Qed.

Lemma content_container_uses_viewport_witness :
  let s := new {| tagName := "BODY"; scrollTop := 0; scrollLeft := 0 |}
               {| left := 0; top := 0; width := 1000; height := 5000 |}
               {| size_width := 1000; size_height := 800 |} None None in
  height (containerBounds_ s) = 800 /\
  onMouseMove s {| clientX := 10; clientY := 900 |} {| x := 0; y := 0 |}
  = onMouseMove s {| clientX := 10; clientY := 900 |} {| x := 0; y := 2000 |}.
Proof.
  intros s.
  destruct (content_container_uses_viewport
              {| tagName := "BODY"; scrollTop := 0; scrollLeft := 0 |}
              {| left := 0; top := 0; width := 1000; height := 5000 |}
              {| size_width := 1000; size_height := 800 |} None None
              {| clientX := 10; clientY := 900 |}
              {| x := 0; y := 0 |} {| x := 0; y := 2000 |}
              (or_introl eq_refl)) as [Hb Hm].
  split; [| exact Hm].
  fold s in Hb. rewrite Hb. reflexivity.
Defined.

End DragScrollSupportMore.

(** ** goog.history.Html5History: reading, writing and signals *)

Module Html5HistoryMore.
Import JsString JsStringFacts Html5History Html5HistoryFacts.
Local Open Scope string_scope.

(** *** Reading the token in path mode *)

Lemma drop_length_app p s : drop (String.length p) (p ++ s) = s.
Proof.
  induction p as [| a rest IH]; [reflexivity | exact IH].
Qed.

Lemma drop_all n s : (String.length s <= n)%nat -> drop n s = "".
Proof.
  revert s. induction n as [| n IH]; intros s H.
  - destruct s; [reflexivity | cbn in H; lia].
  - destruct s as [| a rest]; [reflexivity |].
    cbn [drop]. apply IH. cbn in H. lia.
Qed.

Lemma slice_nonneg s n : slice s (Z.of_nat n) = drop n s.
Proof.
  unfold slice.
  destruct (Z.ltb_spec (Z.of_nat n) 0) as [H | H]; [lia |].
  rewrite Nat2Z.id. reflexivity.
Qed.

(** A channel in path mode, prefix [/app/], at [/app/inbox?lang=en]. *)
Definition pathChannel : World :=
  {| this := {| transformer_ := None; lastFragment_ := None; enabled_ := true;
                useFragment_ := false; pathPrefix_ := "/app/" |};
     window_ :=
       Window_listen POPSTATE true
         (SampleHost.windowAt "http://example.org/app/inbox?lang=en" "/app/inbox"
            "?lang=en" (Some {| pushState_defined := true |}));
     trace := [] |}.

(** X9. In path mode without a transformer, [getToken] drops as many
    characters from the front of the pathname as the prefix is long, without
    looking at them: a pathname that is the prefix followed by a token gives
    the token, and a pathname no longer than the prefix gives the empty
    string. *)
Theorem getToken_path (w : World) :
  useFragment_ (this w) = false ->
  transformer_ (this w) = None ->
  let path := pathname (location (window_ w)) in
  (forall skipped tok,
     path = skipped ++ tok ->
     String.length skipped = String.length (pathPrefix_ (this w)) ->
     getToken w = Ok (tok, w)) /\
  (forall tok, path = pathPrefix_ (this w) ++ tok -> getToken w = Ok (tok, w)) /\
  ((String.length path <= String.length (pathPrefix_ (this w)))%nat ->
   getToken w = Ok ("", w)).
Proof.
  intros Hu Ht path.
  assert (Hrun : getToken w = Ok (drop (String.length (pathPrefix_ (this w))) path, w)).
  { rewrite getToken_run. unfold tokenOf. rewrite Hu, Ht.
    unfold length. rewrite slice_nonneg. reflexivity. }
  rewrite Hrun. split; [| split].
  - intros skipped tok Hp Hlen. rewrite Hp, <- Hlen, drop_length_app. reflexivity.
  - intros tok Hp. rewrite Hp, drop_length_app. reflexivity.
  - intros Hlen. rewrite drop_all by exact Hlen. reflexivity.
Qed.

Lemma getToken_path_witness :
  getToken pathChannel = Ok ("inbox", pathChannel).
Proof.
  assert (Hu : useFragment_ (this pathChannel) = false) by reflexivity.
  assert (Ht : transformer_ (this pathChannel) = None) by reflexivity.
  destruct (getToken_path pathChannel Hu Ht) as (_ & H & _).
  apply H. reflexivity.
Defined.

(** X10. [getToken] reads the location, the mode, the prefix and the
    transformer and nothing else: two worlds that agree on these give the
    same token, whatever their enabled flag, last observed fragment,
    listeners, title or history of effects, and neither world changes. *)
Theorem getToken_frame (w1 w2 : World) :
  location (window_ w1) = location (window_ w2) ->
  useFragment_ (this w1) = useFragment_ (this w2) ->
  pathPrefix_ (this w1) = pathPrefix_ (this w2) ->
  transformer_ (this w1) = transformer_ (this w2) ->
  exists tok, getToken w1 = Ok (tok, w1) /\ getToken w2 = Ok (tok, w2).
Proof.
  intros Hl Hu Hp Ht. exists (tokenOf w1).
  split; [apply getToken_run |].
  rewrite getToken_run, (tokenOf_depends w1 w2) by assumption. reflexivity.
Qed.

Lemma getToken_frame_witness :
  exists tok,
    getToken SampleHost.inboxChannel = Ok (tok, SampleHost.inboxChannel) /\
    getToken enabledInbox = Ok (tok, enabledInbox).
Proof.
  apply (getToken_frame SampleHost.inboxChannel enabledInbox); reflexivity.
Defined.

(** *** Round trips *)

Lemma tokenOf_moved_fragment w call url tok base :
  useFragment_ (this w) = true ->
  href (navigate (window_ w) (location (window_ w)) url) = base ++ String "#" tok ->
  ~ In "#"%char (list_ascii_of_string base) ->
  tokenOf (moved call url tok w) = tok.
Proof.
  intros Hu Hnav Hbase.
  assert (H : getToken (moved call url tok w) = Ok (tok, moved call url tok w)).
  { apply (getToken_after_hash _ base tok); [exact Hu | exact Hnav | exact Hbase]. }
  apply getToken_is in H. exact H.
Qed.

(** X11. In fragment mode, on a host that resolves the URL [#tok] to an href
    whose first '#' is followed by [tok], [getToken] returns [tok] after
    [setToken tok] and after [replaceToken tok], for every token, the ones
    that hold a '#' included. *)
Theorem fragment_round_trip (w : World) (tok : string) (title : option string)
    (base : string) :
  useFragment_ (this w) = true ->
  href (navigate (window_ w) (location (window_ w)) ("#" ++ tok))
  = base ++ String "#" tok ->
  ~ In "#"%char (list_ascii_of_string base) ->
  (exists w1, setToken tok title w = Ok (tt, w1) /\ getToken w1 = Ok (tok, w1)) /\
  (exists w1, replaceToken tok title w = Ok (tt, w1) /\ getToken w1 = Ok (tok, w1)).
Proof.
  intros Hu Hnav Hbase.
  assert (Hurl : urlOf tok w = "#" ++ tok) by (unfold urlOf; rewrite Hu; reflexivity).
  split.
  - destruct (String.eqb_spec (tokenOf w) tok) as [E | E].
    + exists w. split; [apply setToken_same, E | apply getToken_is, E].
    + eexists. split; [apply setToken_other, E |].
      apply getToken_is. rewrite Hurl.
      apply tokenOf_moved_fragment with (base := base); assumption.
  - eexists. split; [apply replaceToken_run |].
    apply getToken_is. rewrite Hurl.
    apply tokenOf_moved_fragment with (base := base); assumption.
Qed.

Lemma fragment_round_trip_witness :
  exists w1,
    setToken "a#b" None SampleHost.inboxChannel = Ok (tt, w1) /\
    getToken w1 = Ok ("a#b", w1).
Proof.
  assert (Hu : useFragment_ (this SampleHost.inboxChannel) = true) by reflexivity.
  destruct (fragment_round_trip SampleHost.inboxChannel "a#b" None
              "http://example.org/app" Hu) as [H _].
  - reflexivity.
  - vm_compute. intuition discriminate.
  - exact H.
Defined.

(** X12. In path mode without a transformer, on a host whose pathname after
    the URL [prefix ++ tok ++ search] is [prefix ++ tok], [getToken] returns
    [tok] after [setToken tok] and after [replaceToken tok]. *)
Theorem path_round_trip (w : World) (tok : string) (title : option string) :
  useFragment_ (this w) = false ->
  transformer_ (this w) = None ->
  pathname (navigate (window_ w) (location (window_ w))
              (pathPrefix_ (this w) ++ tok ++ search (location (window_ w))))
  = pathPrefix_ (this w) ++ tok ->
  (exists w1, setToken tok title w = Ok (tt, w1) /\ getToken w1 = Ok (tok, w1)) /\
  (exists w1, replaceToken tok title w = Ok (tt, w1) /\ getToken w1 = Ok (tok, w1)).
Proof.
  intros Hu Ht Hnav.
  assert (Hurl : urlOf tok w
                 = pathPrefix_ (this w) ++ tok ++ search (location (window_ w)))
    by (unfold urlOf; rewrite Hu, Ht; reflexivity).
  assert (Hback : forall call, tokenOf (moved call (urlOf tok w) tok w) = tok).
  { intros call. unfold tokenOf, moved.
    cbn [this window_ Window_go location]. rewrite Hu, Ht, Hurl, Hnav.
    unfold length. rewrite slice_nonneg. apply drop_length_app. }
  split.
  - destruct (String.eqb_spec (tokenOf w) tok) as [E | E].
    + exists w. split; [apply setToken_same, E | apply getToken_is, E].
    + eexists. split; [apply setToken_other, E |].
      apply getToken_is, Hback.
  - eexists. split; [apply replaceToken_run |].
    apply getToken_is, Hback.
Qed.

Lemma path_round_trip_witness :
  exists w1,
    setToken "sent" None pathChannel = Ok (tt, w1) /\
    getToken w1 = Ok ("sent", w1) /\
    pushes (trace w1) = [("Mail", "/app/sent?lang=en")].
Proof.
  assert (Hu : useFragment_ (this pathChannel) = false) by reflexivity.
  assert (Ht : transformer_ (this pathChannel) = None) by reflexivity.
  destruct (path_round_trip pathChannel "sent" None Hu Ht) as [(w1 & Hrun & Hget) _].
  - reflexivity.
  - exists w1. split; [exact Hrun |]. split; [exact Hget |].
    vm_compute in Hrun. inversion Hrun. reflexivity.
Defined.

(** *** Sequences of calls *)

(** What can happen to a channel: a call of one of its methods by the
    application, an event raised by the host, or the host moving to another
    URL on its own. *)
Inductive Call :=
| SetEnabled (enable : bool)
| SetToken (tok : string) (opt_title : option string)
| ReplaceToken (tok : string) (opt_title : option string)
| SetUseFragment (useFragment : bool)
| SetPathPrefix (pathPrefix : string)
| Signal (ty : EventType)
| HostGo (url : string).

Definition call (c : Call) : M unit :=
  match c with
  | SetEnabled enable => setEnabled enable
  | SetToken tok opt_title => setToken tok opt_title
  | ReplaceToken tok opt_title => replaceToken tok opt_title
  | SetUseFragment useFragment => setUseFragment useFragment
  | SetPathPrefix pathPrefix => setPathPrefix pathPrefix
  | Signal ty => signal ty
  | HostGo url => set_window (Window_go url)
  end.

Fixpoint calls (cs : list Call) : M unit :=
  match cs with
  | [] => ret tt
  | c :: rest => call c ;;; calls rest
  end.

(** The worlds a call can lead to. *)
Inductive Step (w : World) : Call -> World -> Prop :=
| StepNone c : Step w c w
| StepEnabled enable e :
    isNavigation e = false ->
    Step w (SetEnabled enable)
      {| this := with_enabled enable (this w); window_ := window_ w;
         trace := trace w ++ (if enable then [Dispatch e] else []) |}
| StepPush tok opt_title ttl url :
    Step w (SetToken tok opt_title)
      (moved (PushState ttl url) url tok w)
| StepReplace tok opt_title ttl url :
    Step w (ReplaceToken tok opt_title)
      (moved (ReplaceState ttl url) url tok w)
| StepMode useFragment :
    Step w (SetUseFragment useFragment)
      {| this := with_useFragment useFragment (this w);
         window_ := Window_listen HASHCHANGE useFragment (window_ w);
         trace := trace w |}
| StepPrefix pathPrefix :
    Step w (SetPathPrefix pathPrefix)
      {| this := with_pathPrefix pathPrefix (this w); window_ := window_ w;
         trace := trace w |}
| StepNotified ty : Step w (Signal ty) (notified w)
| StepGo url :
    Step w (HostGo url)
      {| this := this w; window_ := Window_go url (window_ w); trace := trace w |}.

Lemma onHistoryEvent__cases e w :
  onHistoryEvent_ e w = Ok (tt, w) \/ onHistoryEvent_ e w = Ok (tt, notified w).
Proof.
  destruct e as [ty].
  destruct (enabled_ (this w)) eqn:He.
  - destruct ty.
    + right. apply onHistoryEvent__popstate, He.
    + destruct (neq (fragmentOf w) (lastFragment_ (this w))) eqn:Hn.
      * right. apply onHistoryEvent__hashchange_new; [exact He | apply neq_true, Hn].
      * left. apply onHistoryEvent__hashchange_same; [exact He | apply neq_false, Hn].
  - left. apply onHistoryEvent__disabled, He.
Qed.

Lemma setUseFragment_run useFragment w :
  setUseFragment useFragment w
  = Ok (tt, if Bool.eqb (useFragment_ (this w)) useFragment then w
            else {| this := with_useFragment useFragment (this w);
                    window_ := Window_listen HASHCHANGE useFragment (window_ w);
                    trace := trace w |}).
Proof.
  unfold setUseFragment. run.
  destruct (Bool.eqb (useFragment_ (this w)) useFragment); reflexivity.
Qed.

(** Every call returns normally, in one of the worlds of [Step]. *)
Lemma call_steps c w : exists w', call c w = Ok (tt, w') /\ Step w c w'.
Proof.
  destruct c as [enable | tok ti | tok ti | uf | pp | ty | url]; cbn [call].
  - destruct (Bool.eqb enable (enabled_ (this w))) eqn:E.
    + exists w. split; [| constructor].
      apply setEnabled_same. apply Bool.eqb_prop in E. exact E.
    + destruct enable, (enabled_ (this w)) eqn:He; try discriminate E.
      * eexists. split; [apply setEnabled_on, He |].
        apply (StepEnabled w true {| token := tokenOf w; isNavigation := false |}).
        reflexivity.
      * eexists. split; [apply setEnabled_off, He |].
        pose proof (StepEnabled w false {| token := ""; isNavigation := false |}
                      eq_refl) as H.
        cbn [app] in H. rewrite app_nil_r in H. exact H.
  - destruct (String.eqb_spec (tokenOf w) tok) as [E | E].
    + exists w. split; [apply setToken_same, E | constructor].
    + eexists. split; [apply setToken_other, E | constructor].
  - eexists. split; [apply replaceToken_run | constructor].
  - rewrite setUseFragment_run.
    destruct (Bool.eqb (useFragment_ (this w)) uf);
      eexists; (split; [reflexivity | constructor]).
  - eexists. split; [reflexivity | constructor].
  - unfold signal. run.
    destruct (match ty with
              | POPSTATE => popstateListener (window_ w)
              | HASHCHANGE => hashchangeListener (window_ w)
              end).
    + destruct (onHistoryEvent__cases {| type := ty |} w) as [H | H]; rewrite H;
        eexists; (split; [reflexivity | constructor]).
    + exists w. split; [reflexivity | constructor].
  - eexists. split; [reflexivity | constructor].
Qed.

(** The channel is wired: the handler listens to POPSTATE, and to
    HASHCHANGE exactly in fragment mode. *)
Definition wired (w : World) : Prop :=
  popstateListener (window_ w) = true /\
  hashchangeListener (window_ w) = useFragment_ (this w).

Lemma Step_wired w c w' : Step w c w' -> wired w -> wired w'.
Proof.
  intros H [Hp Hh]. destruct H; split; cbn; try assumption; reflexivity.
Qed.

Lemma Step_keeps w c w' :
  Step w c w' ->
  transformer_ (this w') = transformer_ (this w) /\
  history (window_ w') = history (window_ w).
Proof.
  intros H. destruct H; split; reflexivity.
Qed.

(** X13. On a channel the constructor returned, every sequence of method
    calls, host events and host navigations runs to the end without a
    throw, and leaves the handler listening to POPSTATE, listening to
    HASHCHANGE exactly when the channel is in fragment mode, the transformer
    the one given at construction and the window still supporting the
    history API. *)
Theorem calls_keep_channel_wired (opt_win : option Window)
    (opt_transformer : option TokenTransformer) (window : Window)
    (w0 : World) (cs : list Call) :
  new opt_win opt_transformer window = Ok w0 ->
  exists w,
    calls cs w0 = Ok (tt, w) /\
    popstateListener (window_ w) = true /\
    hashchangeListener (window_ w) = useFragment_ (this w) /\
    transformer_ (this w) = opt_transformer /\
    isSupported (Some (window_ w)) window = true.
Proof.
  intros Hnew.
  assert (H0 : wired w0 /\ transformer_ (this w0) = opt_transformer
               /\ isSupported (Some (window_ w0)) window = true).
  { unfold new, assert in Hnew.
    destruct (isSupported opt_win window) eqn:Hs; [| discriminate Hnew].
    inversion Hnew. subst w0. repeat split. exact Hs. }
  clear Hnew. revert w0 H0.
  induction cs as [| c rest IH]; intros w0 (Hw & Ht & Hs).
  - exists w0. destruct Hw as [Hp Hh]. cbn [calls]. repeat split; assumption.
  - destruct (call_steps c w0) as (w1 & Hrun & Hstep).
    destruct (Step_keeps Hstep) as [Ht' Hh'].
    destruct (IH w1) as (w & Hrest & Hfinal).
    + split; [exact (Step_wired Hstep Hw) |].
      split; [congruence |].
      unfold isSupported in *. rewrite Hh'. exact Hs.
    + exists w. split; [| exact Hfinal].
      cbn [calls]. unfold bind. rewrite Hrun. exact Hrest.
Qed.

Lemma calls_keep_channel_wired_witness :
  exists w,
    calls [SetEnabled true; SetToken "sent" None; SetUseFragment false;
           Signal HASHCHANGE; SetPathPrefix "/app/"; HostGo "/app/drafts";
           Signal POPSTATE]
      SampleHost.inboxChannel = Ok (tt, w) /\
    hashchangeListener (window_ w) = false /\
    dispatched (trace w)
    = [ {| token := "inbox"; isNavigation := false |};
        {| token := "sent"; isNavigation := false |};
        {| token := "drafts"; isNavigation := true |} ].
Proof.
  destruct (calls_keep_channel_wired
              (Some SampleHost.inboxWindow) None SampleHost.inboxWindow
              [SetEnabled true; SetToken "sent" None; SetUseFragment false;
               Signal HASHCHANGE; SetPathPrefix "/app/"; HostGo "/app/drafts";
               Signal POPSTATE]
              (w0 := SampleHost.inboxChannel) eq_refl)
    as (w & Hrun & _ & Hh & _).
  exists w. split; [exact Hrun |].
  vm_compute in Hrun. inversion Hrun. split; reflexivity.
Defined.

(** X14. A call adds at most one notification to the trace; the
    notification is marked browser-initiated exactly when the call is a host
    event; only [setToken] pushes onto the history and only [replaceToken]
    replaces in it; changing the mode or the prefix has no effect outside
    the channel. *)
Theorem call_effects (c : Call) (w : World) :
  exists w' added,
    call c w = Ok (tt, w') /\
    trace w' = (trace w ++ added)%list /\
    (List.length (dispatched added) <= 1)%nat /\
    Forall (fun e => isNavigation e
                     = match c with Signal _ => true | _ => false end)
      (dispatched added) /\
    (pushes added <> [] -> exists tok opt_title, c = SetToken tok opt_title) /\
    (replaces added <> [] -> exists tok opt_title, c = ReplaceToken tok opt_title) /\
    match c with
    | SetUseFragment _ | SetPathPrefix _ | HostGo _ => added = []
    | _ => True
    end.
Proof.
  destruct (call_steps c w) as (w' & Hrun & Hstep).
  exists w'.
  destruct Hstep as [c | enable e He | tok ti ttl url | tok ti ttl url | uf | pp
                     | ty | url].
  - exists []. split; [exact Hrun |]. split; [symmetry; apply app_nil_r |].
    cbn. split; [lia |]. split; [constructor |].
    split; [intros H; contradiction |]. split; [intros H; contradiction |].
    destruct c; exact I || reflexivity.
  - exists (if enable then [Dispatch e] else []).
    split; [exact Hrun |]. split; [reflexivity |].
    destruct enable; cbn.
    + split; [lia |]. split; [repeat constructor; exact He |].
      split; [intros H; contradiction |]. split; [intros H; contradiction | exact I].
    + split; [lia |]. split; [constructor |].
      split; [intros H; contradiction |]. split; [intros H; contradiction | exact I].
  - eexists. split; [exact Hrun |]. split; [reflexivity |]. cbn.
    split; [lia |]. split; [repeat constructor |].
    split; [intros _; eexists; eexists; reflexivity |].
    split; [intros H; contradiction | exact I].
  - eexists. split; [exact Hrun |]. split; [reflexivity |]. cbn.
    split; [lia |]. split; [repeat constructor |].
    split; [intros H; contradiction |].
    split; [intros _; eexists; eexists; reflexivity | exact I].
  - exists []. split; [exact Hrun |]. split; [symmetry; apply app_nil_r |].
    cbn. split; [lia |]. split; [constructor |].
    split; [intros H; contradiction |]. split; [intros H; contradiction | reflexivity].
  - exists []. split; [exact Hrun |]. split; [symmetry; apply app_nil_r |].
    cbn. split; [lia |]. split; [constructor |].
    split; [intros H; contradiction |]. split; [intros H; contradiction | reflexivity].
  - eexists. split; [exact Hrun |]. split; [reflexivity |]. cbn.
    split; [lia |]. split; [repeat constructor |].
    split; [intros H; contradiction |]. split; [intros H; contradiction | exact I].
  - exists []. split; [exact Hrun |]. split; [symmetry; apply app_nil_r |].
    cbn. split; [lia |]. split; [constructor |].
    split; [intros H; contradiction |]. split; [intros H; contradiction | reflexivity].
Qed.

Lemma call_effects_witness :
  exists w' added,
    call (SetToken "sent" None) SampleHost.inboxChannel = Ok (tt, w') /\
    trace w' = (trace SampleHost.inboxChannel ++ added)%list /\
    pushes added = [("Mail", "#sent")].
Proof.
  destruct (call_effects (SetToken "sent" None) SampleHost.inboxChannel)
    as (w' & added & Hrun & Htrace & _).
  exists w', added. split; [exact Hrun |]. split; [exact Htrace |].
  vm_compute in Hrun. inversion Hrun. subst w'.
  cbn [trace SampleHost.inboxChannel app] in Htrace. rewrite <- Htrace. reflexivity.
Defined.

(** *** Disposal *)

(** X15. On a wired channel [disposeInternal] removes both listeners and
    touches nothing else; afterwards no host event reaches the handler, so
    no sequence of events changes the world, and disposing again changes
    nothing either. *)
Theorem disposeInternal_silences (w : World) (tys : list EventType) :
  hashchangeListener (window_ w) = useFragment_ (this w) ->
  exists w',
    disposeInternal w = Ok (tt, w') /\
    popstateListener (window_ w') = false /\
    hashchangeListener (window_ w') = false /\
    this w' = this w /\ trace w' = trace w /\
    location (window_ w') = location (window_ w) /\
    signals tys w' = Ok (tt, w') /\
    disposeInternal w' = Ok (tt, w').
Proof.
  intros Hh.
  assert (Hquiet : forall w', popstateListener (window_ w') = false ->
                              hashchangeListener (window_ w') = false ->
                              signals tys w' = Ok (tt, w')).
  { intros w' Hp Hc. induction tys as [| ty rest IH]; [reflexivity |].
    cbn [signals]. unfold bind, signal. run.
    destruct ty; rewrite ?Hp, ?Hc; exact IH. }
  unfold disposeInternal. run. cbn [this window_ trace].
  destruct (useFragment_ (this w)) eqn:Hu.
  - eexists. split; [reflexivity |]. cbn [this window_ trace].
    repeat split; [apply Hquiet; reflexivity |].
    rewrite Hu. reflexivity.
  - eexists. split; [reflexivity |]. cbn [this window_ trace].
    repeat split; try exact Hh; [apply Hquiet; [reflexivity | exact Hh] |].
    rewrite Hu. reflexivity.
Qed.

Lemma disposeInternal_silences_witness :
  exists w',
    disposeInternal enabledInbox = Ok (tt, w') /\
    signals [POPSTATE; HASHCHANGE] w' = Ok (tt, w').
Proof.
  destruct (disposeInternal_silences enabledInbox [POPSTATE; HASHCHANGE] eq_refl)
    as (w' & Hrun & _ & _ & _ & _ & _ & Hquiet & _).
  exists w'. split; assumption.
Defined.

(** *** More on host events *)

Lemma tokenOf_notified w : tokenOf (notified w) = tokenOf w.
Proof. apply tokenOf_depends; reflexivity. Qed.

Lemma after_notified w :
  enabled_ (this w) = true ->
  onHistoryEvent_ {| type := HASHCHANGE |} (notified w) = Ok (tt, notified w).
Proof.
  intros He. apply onHistoryEvent__hashchange_same; [exact He |].
  unfold notified. cbn [this with_lastFragment lastFragment_].
  apply fragmentOf_depends; reflexivity.
Qed.

(** X16. Enabling a channel does not record the fragment: on a channel the
    constructor returned, the first HASHCHANGE after [setEnabled(true)]
    dispatches a second notification with the same token although the
    location has not changed, this one marked browser-initiated; only then
    is the fragment recorded. *)
Theorem first_hashchange_after_enabling (opt_win : option Window)
    (opt_transformer : option TokenTransformer) (window : Window) (w0 : World) :
  new opt_win opt_transformer window = Ok w0 ->
  exists tok w1 w2,
    getToken w0 = Ok (tok, w0) /\
    setEnabled true w0 = Ok (tt, w1) /\
    lastFragment_ (this w1) = None /\
    signal HASHCHANGE w1 = Ok (tt, w2) /\
    trace w2 = [Dispatch {| token := tok; isNavigation := false |};
                Dispatch {| token := tok; isNavigation := true |}] /\
    lastFragment_ (this w2) = Some tok /\
    location (window_ w2) = location (window_ w0).
Proof.
  intros Hnew. unfold new, assert in Hnew.
  destruct (isSupported opt_win window); [| discriminate Hnew].
  inversion Hnew as [Hw0]. clear Hnew.
  set (win := match opt_win with Some w => w | None => window end) in *.
  set (fresh := {| this := {| transformer_ := opt_transformer; lastFragment_ := None;
                              enabled_ := false; useFragment_ := true;
                              pathPrefix_ := "/" |};
                   window_ := Window_listen HASHCHANGE true
                                (Window_listen POPSTATE true win);
                   trace := [] |}) in *.
  clearbody win. subst w0.
  assert (Hoff : enabled_ (this fresh) = false) by reflexivity.
  pose proof (setEnabled_on fresh Hoff) as Hon.
  set (w1 := {| this := with_enabled true (this fresh); window_ := window_ fresh;
                trace := (trace fresh
                          ++ [Dispatch {| token := tokenOf fresh;
                                          isNavigation := false |}])%list |}) in *.
  assert (Htok : tokenOf w1 = tokenOf fresh) by (apply tokenOf_depends; reflexivity).
  assert (Hfrag : fragmentOf w1 = Some (tokenOf fresh)) by reflexivity.
  exists (tokenOf fresh), w1, (notified w1).
  split; [apply getToken_run |].
  split; [exact Hon |].
  split; [reflexivity |].
  split.
  - unfold signal. run.
    apply onHistoryEvent__hashchange_new; [reflexivity |].
    rewrite Hfrag. discriminate.
  - unfold notified. cbn [trace this with_lastFragment lastFragment_ window_].
    rewrite Htok, Hfrag. repeat split.
Qed.

Lemma first_hashchange_after_enabling_witness :
  exists w2,
    (setEnabled true ;;; signal HASHCHANGE) SampleHost.inboxChannel = Ok (tt, w2) /\
    dispatched (trace w2)
    = [ {| token := "inbox"; isNavigation := false |};
        {| token := "inbox"; isNavigation := true |} ].
Proof.
  destruct (first_hashchange_after_enabling
              (Some SampleHost.inboxWindow) None SampleHost.inboxWindow
              (w0 := SampleHost.inboxChannel) eq_refl)
    as (tok & w1 & w2 & Htok & Hon & _ & Hsig & Htrace & _).
  exists w2. split.
  - unfold bind. rewrite Hon. exact Hsig.
  - apply getToken_inv in Htok. destruct Htok as [Htok _].
    rewrite Htrace, Htok. reflexivity.
Defined.

(** X17. Whatever the state of the channel, once the handler has seen an
    event, a HASHCHANGE that follows at the same location does nothing: it
    dispatches no notification and changes no field. *)
Theorem hashchange_after_event_is_noop (e : BrowserEvent) (w : World) :
  exists w1,
    onHistoryEvent_ e w = Ok (tt, w1) /\
    onHistoryEvent_ {| type := HASHCHANGE |} w1 = Ok (tt, w1).
Proof.
  destruct (enabled_ (this w)) eqn:He.
  - destruct (onHistoryEvent__cases e w) as [H | H].
    + exists w. split; [exact H |].
      destruct e as [[|]].
      * rewrite onHistoryEvent__popstate in H by exact He.
        inversion H as [Hw]. rewrite <- Hw at 1. rewrite <- Hw at 2.
        apply after_notified, He.
      * destruct (onHistoryEvent__cases {| type := HASHCHANGE |} w) as [H' | H'];
          [exact H' | congruence].
    + exists (notified w). split; [exact H | apply after_notified, He].
  - exists w. split; apply onHistoryEvent__disabled; exact He.
Qed.

(** The handler [n] times in a row. *)
Fixpoint popstates (n : nat) : M unit :=
  match n with
  | O => ret tt
  | S n' => onHistoryEvent_ {| type := POPSTATE |} ;;; popstates n'
  end.

(** X18. POPSTATE is never suppressed: on an enabled channel [n] POPSTATE
    events in a row at one location dispatch [n] notifications, all
    browser-initiated and all with the current token. *)
Theorem popstate_never_suppressed (w : World) (n : nat) :
  enabled_ (this w) = true ->
  exists tok w',
    getToken w = Ok (tok, w) /\
    popstates n w = Ok (tt, w') /\
    trace w' = (trace w
                ++ repeat (Dispatch {| token := tok; isNavigation := true |}) n)%list.
Proof.
  intros He. exists (tokenOf w).
  assert (H : exists w', popstates n w = Ok (tt, w') /\
              trace w' = (trace w ++ repeat (Dispatch {| token := tokenOf w;
                                                        isNavigation := true |}) n)%list).
  { revert w He. induction n as [| n IH]; intros w He.
    - exists w. split; [reflexivity | symmetry; apply app_nil_r].
    - destruct (IH (notified w)) as (w' & Hrun & Htrace); [exact He |].
      exists w'. split.
      + cbn [popstates]. unfold bind.
        rewrite onHistoryEvent__popstate by exact He. exact Hrun.
      + rewrite Htrace, tokenOf_notified. unfold notified. cbn [trace repeat].
        rewrite <- app_assoc. reflexivity. }
  destruct H as (w' & Hrun & Htrace).
  exists w'. split; [apply getToken_run |]. split; assumption.
Qed.

Lemma popstate_never_suppressed_witness :
  exists w',
    popstates 3 enabledInbox = Ok (tt, w') /\
    List.length (dispatched (trace w')) = 3%nat.
Proof.
  destruct (popstate_never_suppressed enabledInbox 3 eq_refl)
    as (tok & w' & _ & Hrun & Htrace).
  exists w'. split; [exact Hrun |]. rewrite Htrace. reflexivity.
Defined.

End Html5HistoryMore.
